(** * RNS510 code finder: a shallow embedding of [rns510_code_finder.py]

    The program drives a serial port: it sends [TpPvVerifyPin(<pin>)] for
    every candidate of a range, reads back whatever the unit answered and
    looks for the markers [Hash valid] / [Hash invalid] in the accumulated
    text.  The embedding below follows the Python class method by method.

    - Python [bytes] are Rocq strings (one [ascii] per byte).
    - A Python [str] is represented by its UTF-8 encoding, again a Rocq
      string.  [encode("utf-8")] is then the identity and [decode("utf-8")]
      is a validity check.  UTF-8 is self-synchronising, so searching a
      well-formed text for a well-formed needle gives the same answer on
      code points and on bytes; every text the program builds is ASCII.
    - Methods run in a state-and-exception monad: a raise keeps the
      mutations made before it, as in Python. *)

From Stdlib Require Import ZArith List String Ascii Bool Lia DecimalString.
From Stdlib Require DecimalPos.
Import ListNotations.

Open Scope string_scope.
Open Scope Z_scope.

(** ** Python string primitives *)

Module PyStr.

Definition bytes := string.

(** [needle in haystack] on [str]. *)
Fixpoint contains (needle haystack : string) : bool :=
  String.prefix needle haystack
  || match haystack with
     | EmptyString => false
     | String _ rest => contains needle rest
     end.

(** [str(i)] for an [int]. *)
Definition str (i : Z) : string := NilZero.string_of_int (Z.to_int i).

Fixpoint zeros (n : nat) : string :=
  match n with
  | O => ""
  | S n' => String "0" (zeros n')
  end.

(** [s.zfill(width)]: pad with zeros on the left, after a leading sign. *)
Definition zfill (width : nat) (s : string) : string :=
  if (width <=? String.length s)%nat then s
  else
    let fill := zeros (width - String.length s) in
    match s with
    | String c rest =>
        if (Ascii.eqb c "+" || Ascii.eqb c "-")%bool
        then String c (fill ++ rest)
        else fill ++ s
    | EmptyString => fill
    end.

(** *** Strict UTF-8 well-formedness (RFC 3629), what
    [bytes.decode("utf-8")] accepts. *)

Definition byte_in (lo hi : N) (c : ascii) : bool :=
  let b := N_of_ascii c in ((lo <=? b) && (b <=? hi))%N.

Definition cont := byte_in 128 191.

Fixpoint valid_utf8 (s : bytes) : bool :=
  match s with
  | EmptyString => true
  | String b0 r0 =>
      if byte_in 0 127 b0 then valid_utf8 r0
      else
        match r0 with
        | EmptyString => false
        | String b1 r1 =>
            if byte_in 194 223 b0 then cont b1 && valid_utf8 r1
            else
              match r1 with
              | EmptyString => false
              | String b2 r2 =>
                  if byte_in 224 224 b0
                  then byte_in 160 191 b1 && cont b2 && valid_utf8 r2
                  else if byte_in 225 236 b0 || byte_in 238 239 b0
                  then cont b1 && cont b2 && valid_utf8 r2
                  else if byte_in 237 237 b0
                  then byte_in 128 159 b1 && cont b2 && valid_utf8 r2
                  else
                    match r2 with
                    | EmptyString => false
                    | String b3 r3 =>
                        if byte_in 240 240 b0
                        then byte_in 144 191 b1 && cont b2 && cont b3
                             && valid_utf8 r3
                        else if byte_in 241 243 b0
                        then cont b1 && cont b2 && cont b3 && valid_utf8 r3
                        else if byte_in 244 244 b0
                        then byte_in 128 143 b1 && cont b2 && cont b3
                             && valid_utf8 r3
                        else false
                    end
              end
        end
  end.

End PyStr.

(** ** Exceptions, log records and the serial driver *)

(** The exception classes the handlers of [find_code] tell apart. *)
Inductive exn :=
| SerialException (msg : string)          (* serial.SerialException *)
| UnicodeDecodeError (object : PyStr.bytes) (* from bytes.decode; an Exception *)
| Exception (msg : string)                (* any other subclass of Exception *)
| BaseException (msg : string).           (* KeyboardInterrupt, SystemExit, ... *)

(** [isinstance(e, Exception)] *)
Definition is_Exception (e : exn) : bool :=
  match e with
  | BaseException _ => false
  | _ => true
  end.

Inductive outcome (A : Type) :=
| Ok (a : A)
| Raise (e : exn).
Arguments Ok {A} a.
Arguments Raise {A} e.

Inductive level := DEBUG | INFO | WARNING | ERROR.

Definition level_rank (l : level) : nat :=
  match l with DEBUG => 10 | INFO => 20 | WARNING => 30 | ERROR => 40 end.

(** One constructor per [logging] call of the class. *)
Inductive event :=
| Opened (port : string)
| Closed (port : string)
| Sent (command : string)
| Received (rx : string)
| Stopped
| Trying (pin : string)
| Found (pin : string)
| Invalid (pin : string)
| NoResponse (pin : string)
| SerialError (e : exn)
| UnexpectedError (e : exn).

Definition event_level (ev : event) : level :=
  match ev with
  | Sent _ | Received _ => DEBUG
  | NoResponse _ => WARNING
  | SerialError _ | UnexpectedError _ => ERROR
  | _ => INFO
  end.

(** The text of the record; an interpolated exception is kept as it is. *)
Definition message (ev : event) : string * option exn :=
  match ev with
  | Opened port => ("Opened serial port " ++ port, None)
  | Closed port => ("Closed serial port " ++ port, None)
  | Sent command => ("Sent command: " ++ command, None)
  | Received rx => ("Received response: " ++ rx, None)
  | Stopped => ("Process stopped by user.", None)
  | Trying pin => ("Trying code: " ++ pin, None)
  | Found pin => ("Code found: " ++ pin, None)
  | Invalid pin => ("Code " ++ pin ++ " is invalid.", None)
  | NoResponse pin => ("No response for code " ++ pin ++ ", retrying...", None)
  | SerialError e => ("Serial communication error: ", Some e)
  | UnexpectedError e => ("An unexpected error occurred: ", Some e)
  end.

(** What the class uses of [serial.Serial] and of [time.sleep], over a state
    [T] of the port and of the unit behind it.  Every call may raise. *)
Record Serial (T : Type) := {
  is_open : T -> bool;
  port : T -> string;
  open : T -> outcome unit * T;
  close : T -> outcome unit * T;
  write : PyStr.bytes -> T -> outcome nat * T;
  in_waiting : T -> outcome nat * T;
  read : nat -> T -> outcome PyStr.bytes * T;
  sleep : T -> outcome unit * T
}.
Arguments is_open {T} _ _.
Arguments port {T} _ _.
Arguments open {T} _ _.
Arguments close {T} _ _.
Arguments write {T} _ _ _.
Arguments in_waiting {T} _ _.
Arguments read {T} _ _ _.
Arguments sleep {T} _ _.

(** A driver whose [close] succeeds on an open port and leaves it closed. *)
Class Reliable {T : Type} (D : Serial T) : Prop :=
  close_closes : forall t, is_open D t = true ->
    fst (close D t) = Ok tt /\ is_open D (snd (close D t)) = false.

(** ** The class *)

(** The attributes of [RNS510CodeFinder], and beside them the records the
    process-wide [logging] has emitted, oldest first. *)
Record RNS510CodeFinder (T : Type) := {
  serial_port : T;
  stop_count : bool;
  pin : string;
  rx : string;
  logging : list event
}.
Arguments serial_port {T} _.
Arguments stop_count {T} _.
Arguments pin {T} _.
Arguments rx {T} _.
Arguments logging {T} _.

Definition M (T A : Type) : Type :=
  RNS510CodeFinder T -> outcome A * RNS510CodeFinder T.

Definition ret {T A} (a : A) : M T A := fun st => (Ok a, st).

Definition bind {T A B} (m : M T A) (k : A -> M T B) : M T B :=
  fun st =>
    match m st with
    | (Ok a, st') => k a st'
    | (Raise e, st') => (Raise e, st')
    end.

Notation "x <- m ;; k" := (bind m (fun x => k))
  (at level 61, m at next level, right associativity).
Notation "m ;; k" := (bind m (fun _ => k))
  (at level 61, right associativity).

Definition raise {T A} (e : exn) : M T A := fun st => (Raise e, st).

(** [try: body except ...: handler]; [handler e = None] when no clause
    matches [e]. *)
Definition try_except {T A} (body : M T A) (handler : exn -> option (M T A))
  : M T A :=
  fun st =>
    match body st with
    | (Ok a, st') => (Ok a, st')
    | (Raise e, st') =>
        match handler e with
        | Some h => h st'
        | None => (Raise e, st')
        end
    end.

(** [try: body finally: cleanup]: the cleanup always runs; its own raise
    replaces the outcome of the body. *)
Definition try_finally {T A} (body : M T A) (cleanup : M T unit) : M T A :=
  fun st =>
    match body st with
    | (r, st') =>
        match cleanup st' with
        | (Ok _, st'') => (r, st'')
        | (Raise e, st'') => (Raise e, st'')
        end
    end.

Inductive flow := Next | Break.

(** [for i in range(i, i + n): body] *)
Fixpoint for_range {T} (n : nat) (i : Z) (body : Z -> M T flow) : M T unit :=
  match n with
  | O => ret tt
  | S n' =>
      c <- body i ;;
      match c with
      | Break => ret tt
      | Next => for_range n' (i + 1) body
      end
  end.

(** [str(i).zfill(4)], the candidate the loop builds for [i]. *)
Definition candidate (i : Z) : string := PyStr.zfill 4 (PyStr.str i).

Section Finder.

Context {T : Type} (D : Serial T).

(** The cancellation flag is written from outside the class (a signal
    handler, a user interface); the class only reads it, once per
    candidate.  [controller i = true]: the outside has set the flag by the
    time candidate [i] is polled and after the previous poll. *)
Variable controller : Z -> bool.

Definition set_serial_port (t : T) (st : RNS510CodeFinder T) : RNS510CodeFinder T :=
  {| serial_port := t; stop_count := stop_count st; pin := pin st;
     rx := rx st; logging := logging st |}.

Definition set_stop_count (b : bool) (st : RNS510CodeFinder T) : RNS510CodeFinder T :=
  {| serial_port := serial_port st; stop_count := b; pin := pin st;
     rx := rx st; logging := logging st |}.

Definition set_pin (p : string) (st : RNS510CodeFinder T) : RNS510CodeFinder T :=
  {| serial_port := serial_port st; stop_count := stop_count st; pin := p;
     rx := rx st; logging := logging st |}.

Definition set_rx (r : string) (st : RNS510CodeFinder T) : RNS510CodeFinder T :=
  {| serial_port := serial_port st; stop_count := stop_count st;
     pin := pin st; rx := r; logging := logging st |}.

Definition set_logging (l : list event) (st : RNS510CodeFinder T) : RNS510CodeFinder T :=
  {| serial_port := serial_port st; stop_count := stop_count st;
     pin := pin st; rx := rx st; logging := l |}.

(** [__init__], given the port object [serial.Serial(...)] returned. *)
Definition init (t : T) : RNS510CodeFinder T :=
  {| serial_port := t; stop_count := false; pin := "0000"; rx := "";
     logging := [] |}.

Definition gets {A} (f : RNS510CodeFinder T -> A) : M T A :=
  fun st => (Ok (f st), st).

Definition modify (f : RNS510CodeFinder T -> RNS510CodeFinder T) : M T unit :=
  fun st => (Ok tt, f st).

(** A method call on [self.serial_port]. *)
Definition call {A} (op : T -> outcome A * T) : M T A :=
  fun st =>
    let (r, t) := op (serial_port st) in (r, set_serial_port t st).

(** [logging.basicConfig(level=logging.INFO)]: records below INFO are
    dropped. *)
Definition log (ev : event) : M T unit :=
  if (level_rank INFO <=? level_rank (event_level ev))%nat
  then modify (fun st => set_logging (logging st ++ [ev]) st)
  else ret tt.

Definition decode (b : PyStr.bytes) : M T string :=
  if PyStr.valid_utf8 b then ret b else raise (UnicodeDecodeError b).

Definition open_port : M T unit :=
  o <- gets (fun st => is_open D (serial_port st)) ;;
  if negb o then
    call (open D) ;;
    p <- gets (fun st => port D (serial_port st)) ;;
    log (Opened p)
  else ret tt.

Definition close_port : M T unit :=
  o <- gets (fun st => is_open D (serial_port st)) ;;
  if o then
    call (close D) ;;
    p <- gets (fun st => port D (serial_port st)) ;;
    log (Closed p)
  else ret tt.

Definition send_command (command : string) : M T unit :=
  call (write D (command ++ String "010" "")) ;;
  log (Sent command).

Definition read_response : M T string :=
  n <- call (in_waiting D) ;;
  b <- call (read D n) ;;
  s <- decode b ;;
  modify (fun st => set_rx (rx st ++ s) st) ;;
  r <- gets rx ;;
  log (Received r) ;;
  gets rx.

(** Python's [True], [False] and [None] are [Some true], [Some false] and
    [None]. *)
Definition verify_pin (pin : string) : M T (option bool) :=
  send_command ("TpPvVerifyPin(" ++ pin ++ ")") ;;
  call (sleep D) ;;
  response <- read_response ;;
  if PyStr.contains "Hash valid" response then ret (Some true)
  else if PyStr.contains "Hash invalid" response then ret (Some false)
  else ret None.

(** An outside write to [stop_count] landing before candidate [i] is
    polled. *)
Definition outside (i : Z) : M T unit :=
  if controller i then modify (set_stop_count true) else ret tt.

(** The body of the [for] loop of [find_code]. *)
Definition try_candidate (i : Z) : M T flow :=
  outside i ;;
  stop <- gets stop_count ;;
  if stop then
    log Stopped ;;
    ret Break
  else
    let pin := candidate i in
    log (Trying pin) ;;
    valid <- verify_pin pin ;;
    match valid with
    | Some true =>
        log (Found pin) ;;
        modify (set_pin pin) ;;
        ret Break
    | Some false =>
        log (Invalid pin) ;;
        ret Next
    | None =>
        log (NoResponse pin) ;;
        ret Next
    end.

(** The [try] block of [find_code]. *)
Definition scan (start stop : Z) : M T unit :=
  open_port ;;
  for_range (Z.to_nat (stop + 1 - start)) start try_candidate.

Definition handlers (e : exn) : option (M T unit) :=
  match e with
  | SerialException _ => Some (log (SerialError e))
  | _ => if is_Exception e then Some (log (UnexpectedError e)) else None
  end.

Definition find_code (start stop : Z) : M T unit :=
  try_finally (try_except (scan start stop) handlers) close_port.

End Finder.

Arguments set_serial_port {T} t st.
Arguments set_stop_count {T} b st.
Arguments set_pin {T} p st.
Arguments set_rx {T} r st.
Arguments set_logging {T} l st.
Arguments init {T} t.

(** ** A simulated port

    A port double for the scenarios of the specification: it records every
    line written to it, and a [device] function answers each line with the
    bytes that become readable. *)

Record Sim := {
  sim_is_open : bool;
  sim_port : string;
  wire : list PyStr.bytes;   (* what was written, oldest first *)
  pending : PyStr.bytes      (* answered and not read yet *)
}.

Definition not_open : exn :=
  SerialException "Attempting to use a port that is not open".

Section Simulation.

Variable device : PyStr.bytes -> PyStr.bytes.
Variable open_error : option exn.

Definition sim_set_open (b : bool) (s : Sim) : Sim :=
  {| sim_is_open := b; sim_port := sim_port s; wire := wire s;
     pending := pending s |}.

Definition sim_open (s : Sim) : outcome unit * Sim :=
  match open_error with
  | Some e => (Raise e, s)
  | None => (Ok tt, sim_set_open true s)
  end.

Definition sim_close (s : Sim) : outcome unit * Sim :=
  (Ok tt, sim_set_open false s).

Definition sim_write (data : PyStr.bytes) (s : Sim) : outcome nat * Sim :=
  if sim_is_open s then
    (Ok (String.length data),
     {| sim_is_open := true; sim_port := sim_port s;
        wire := wire s ++ [data]; pending := pending s ++ device data |})
  else (Raise not_open, s).

Definition sim_in_waiting (s : Sim) : outcome nat * Sim :=
  if sim_is_open s then (Ok (String.length (pending s)), s)
  else (Raise not_open, s).

Definition sim_read (n : nat) (s : Sim) : outcome PyStr.bytes * Sim :=
  if sim_is_open s then
    (Ok (String.substring 0 n (pending s)),
     {| sim_is_open := true; sim_port := sim_port s; wire := wire s;
        pending := String.substring n (String.length (pending s) - n)
                     (pending s) |})
  else (Raise not_open, s).

Definition sim : Serial Sim :=
  {| is_open := sim_is_open; port := sim_port; open := sim_open;
     close := sim_close; write := sim_write; in_waiting := sim_in_waiting;
     read := sim_read; sleep := fun s => (Ok tt, s) |}.

End Simulation.

(** A freshly built port object, not opened yet. *)
Definition unplugged : Sim :=
  {| sim_is_open := false; sim_port := "COM3"; wire := []; pending := "" |}.

(** A unit that accepts exactly [code]. *)
Definition unit_with_code (code : string) (line : PyStr.bytes) : PyStr.bytes :=
  if String.eqb line (("TpPvVerifyPin(" ++ code ++ ")") ++ String "010" "")
  then "Hash valid" ++ String "010" ""
  else "Hash invalid" ++ String "010" "".

(** A unit that prints the same text whatever it is sent. *)
Definition unit_saying (text : PyStr.bytes) (_ : PyStr.bytes) : PyStr.bytes :=
  text.

(** One byte that starts no UTF-8 sequence. *)
Definition garbage : PyStr.bytes := String (ascii_of_nat 255) "".

(** Nobody touches the cancellation flag. *)
Definition nobody (_ : Z) : bool := false.

(** ** Vocabulary of the statements *)

(** [list(range(i, i + n))] *)
Fixpoint zseq (i : Z) (n : nat) : list Z :=
  match n with
  | O => []
  | S n' => i :: zseq (i + 1) n'
  end.

(** The line [send_command] puts on the wire for a candidate. *)
Definition command_line (p : string) : PyStr.bytes :=
  ("TpPvVerifyPin(" ++ p ++ ")") ++ String "010" "".

(** [needle] is a substring of [text]. *)
Definition occurs_in (needle text : string) : Prop :=
  exists before after, text = before ++ needle ++ after.

(** The candidates a log shows as probed, in order. *)
Fixpoint tried (evs : list event) : list string :=
  match evs with
  | [] => []
  | Trying p :: evs' => p :: tried evs'
  | _ :: evs' => tried evs'
  end.

Fixpoint closed_events (evs : list event) : nat :=
  match evs with
  | [] => 0
  | Closed _ :: evs' => S (closed_events evs')
  | _ :: evs' => closed_events evs'
  end.

(** The three-way reading of a response text. *)
Definition classify (response : string) : option bool :=
  if PyStr.contains "Hash valid" response then Some true
  else if PyStr.contains "Hash invalid" response then Some false
  else None.

(** How a scan can end (the terminal states of the specification). *)
Inductive ending :=
| Exhausted
| PinFound (p : string)
| UserStopped
| Failed (e : exn).

(** The records one run of the loop over [range(i, i + n)] can emit, and
    how the run ends, when the flag is [flag] on entry and the outside sets
    it as [controller] says. *)
Inductive scan_run (controller : Z -> bool)
  : bool -> Z -> nat -> list event -> ending -> Prop :=
| run_exhausted flag i :
    scan_run controller flag i 0 [] Exhausted
| run_stopped flag i n :
    flag || controller i = true ->
    scan_run controller flag i (S n) [Stopped] UserStopped
| run_found i n :
    controller i = false ->
    scan_run controller false i (S n)
      [Trying (candidate i); Found (candidate i)] (PinFound (candidate i))
| run_failed i n e :
    controller i = false ->
    scan_run controller false i (S n) [Trying (candidate i)] (Failed e)
| run_invalid i n evs en :
    controller i = false ->
    scan_run controller false (i + 1) n evs en ->
    scan_run controller false i (S n)
      (Trying (candidate i) :: Invalid (candidate i) :: evs) en
| run_no_response i n evs en :
    controller i = false ->
    scan_run controller false (i + 1) n evs en ->
    scan_run controller false i (S n)
      (Trying (candidate i) :: NoResponse (candidate i) :: evs) en.

(** The records of the [try] block: the port is opened if need be, then the
    loop runs over [range(start, stop + 1)]; or opening raises. *)
Inductive try_run (controller : Z -> bool) (flag : bool) (start stop : Z)
  : list event -> ending -> Prop :=
| try_open_failed e :
    try_run controller flag start stop [] (Failed e)
| try_scanned opened evs en :
    (opened = [] \/ exists p, opened = [Opened p]) ->
    scan_run controller flag start (Z.to_nat (stop + 1 - start)) evs en ->
    try_run controller flag start stop (opened ++ evs) en.

(** The record the [except] clauses add. *)
Definition error_record (e : exn) : event :=
  match e with
  | SerialException _ => SerialError e
  | _ => UnexpectedError e
  end.

Definition report (en : ending) : list event :=
  match en with
  | Failed e => if is_Exception e then [error_record e] else []
  | _ => []
  end.

(** What [find_code] hands back to its caller when [close_port] does not
    raise: [None], or the exception no clause caught. *)
Definition result (en : ending) : outcome unit :=
  match en with
  | Failed e => if is_Exception e then Ok tt else Raise e
  | _ => Ok tt
  end.

(** What an ending says about the outcome and the attributes. *)
Definition ends_as {T} (en : ending) (r : outcome unit)
  (st st' : RNS510CodeFinder T) : Prop :=
  match en with
  | Exhausted =>
      r = Ok tt /\ pin st' = pin st /\ stop_count st' = stop_count st
  | PinFound p =>
      r = Ok tt /\ pin st' = p /\ stop_count st' = stop_count st
      /\ classify (rx st') = Some true
  | UserStopped =>
      r = Ok tt /\ pin st' = pin st /\ stop_count st' = true
  | Failed e =>
      r = Raise e /\ pin st' = pin st /\ stop_count st' = stop_count st
  end.

(** The record that follows a candidate that was not accepted. *)
Definition skip_record (v : option bool) (p : string) : event :=
  match v with
  | Some false => Invalid p
  | _ => NoResponse p
  end.

(** The records of [n] candidates from [i] on, none of them accepted and all
    of them answered with [v]. *)
Definition rounds (v : option bool) (i : Z) (n : nat) : list event :=
  flat_map (fun j => [Trying (candidate j); skip_record v (candidate j)])
    (zseq i n).

(** No proper end of [needle], nor [needle] itself, begins [text]. *)
Fixpoint no_overlap (needle text : string) : bool :=
  match needle with
  | EmptyString => true
  | String _ rest =>
      negb (String.prefix needle text) && no_overlap rest text
  end.

(** The four decimal digits of [p], most significant first. *)
Definition digit (d : Z) : ascii := ascii_of_N (48 + Z.to_N d).

Definition four_digits (p : Z) : string :=
  String (digit (p / 1000))
    (String (digit (p / 100 mod 10))
       (String (digit (p / 10 mod 10))
          (String (digit (p mod 10)) ""))).

Fixpoint decimal_value (acc : Z) (s : string) : Z :=
  match s with
  | EmptyString => acc
  | String c s' => decimal_value (10 * acc + (Z.of_N (N_of_ascii c) - 48)) s'
  end.

Definition formats_as_four_digits (k : nat) : bool :=
  String.eqb (candidate (Z.of_nat k)) (four_digits (Z.of_nat k)).

(** On [0, 100] the unit that accepts "0042" answers candidate 42 with
    "Hash valid" and every other one with "Hash invalid". *)
Definition answers_as_0042 (k : nat) : bool :=
  let j := Z.of_nat k in
  String.eqb (unit_with_code "0042" (command_line (candidate j)))
    (if j =? 42 then "Hash valid" ++ String "010" ""
     else "Hash invalid" ++ String "010" "").

(** The port is open, nothing is waiting to be read, and the buffer holds
    neither marker in [markers]. *)
Definition sim_ready (markers : list string) (t : Sim) (buffer : string)
  : Prop :=
  sim_is_open t = true /\ pending t = ""
  /\ forallb (fun m => negb (PyStr.contains m buffer)) markers = true.

(** ** Vocabulary of the further properties *)

(** The integer a text denotes in decimal: an optional "-" and digits. *)
Definition signed_value (s : string) : Z :=
  match s with
  | String c rest =>
      if Ascii.eqb c "-" then - decimal_value 0 rest else decimal_value 0 s
  | EmptyString => 0
  end.

Fixpoint all_digits (s : string) : bool :=
  match s with
  | EmptyString => true
  | String c rest => PyStr.byte_in 48 57 c && all_digits rest
  end.

(** Every byte is below 128. *)
Fixpoint is_ascii (s : PyStr.bytes) : bool :=
  match s with
  | EmptyString => true
  | String c rest => PyStr.byte_in 0 127 c && is_ascii rest
  end.

(** ** The script

    The [__main__] block, once the arguments are parsed and the object is
    built around the port [t].  The script has one [logging] call of its
    own, in its [except] clause. *)
Inductive process_record :=
| ByClass (ev : event)
| TopLevelError (e : exn).     (* f"An error occurred: {e}" *)

Section Script.

Context {T : Type} (D : Serial T).
Variable controller : Z -> bool.

(** The outcome of the process, the port it leaves and what it logged.
    [close_port] only appends to the log, so the records of the last call
    are collected from an empty one. *)
Definition main (start stop : Z) (t : T)
  : outcome unit * T * list process_record :=
  let decoder := init t in
  let (r, st1) := find_code D controller start stop decoder in
  let handled :=
    match r with
    | Ok _ => (Ok tt, [])
    | Raise e =>
        if is_Exception e then (Ok tt, [TopLevelError e]) else (Raise e, [])
    end in
  let (rc, st2) := close_port D (set_logging [] st1) in
  (match rc with Ok _ => fst handled | Raise e => Raise e end,
   serial_port st2,
   (map ByClass (logging st1) ++ snd handled
      ++ map ByClass (logging st2))%list).

End Script.

(** * Properties *)

(** ** Strings *)

Lemma append_nil_r (s : string) : s ++ "" = s.
Proof. induction s as [|c s IH]; simpl; [reflexivity | now rewrite IH]. Qed.

Lemma append_assoc (a b c : string) : (a ++ b) ++ c = a ++ (b ++ c).
Proof. induction a as [|x a IH]; simpl; [reflexivity | now rewrite IH]. Qed.

Lemma prefix_iff (n h : string) :
  String.prefix n h = true <-> exists b, h = n ++ b.
Proof.
  revert h; induction n as [|c n IH]; intros h; simpl.
  - split; [intros _; now exists h | intros _; now destruct h].
  - destruct h as [|d h]; simpl;
      [split; [discriminate | intros [b Hb]; discriminate]|].
    destruct (ascii_dec c d) as [->|Hne].
    + rewrite IH; split; intros [b Hb]; exists b; [now rewrite Hb | now inversion Hb].
    + split; [discriminate | intros [b Hb]; inversion Hb; congruence].
Qed.

(** [contains] decides "is a substring of". *)
Lemma contains_iff (n h : string) :
  PyStr.contains n h = true <-> exists a b, h = a ++ n ++ b.
Proof.
  induction h as [|d h IH]; cbn [PyStr.contains].
  - rewrite orb_false_r, prefix_iff; split.
    + intros [b Hb]; now exists "", b.
    + intros [[|x a] [b Hb]]; [now exists b | discriminate].
  - rewrite orb_true_iff, prefix_iff, IH; split.
    + intros [[b Hb] | [a [b Hb]]].
      * now exists "", b.
      * exists (String d a), b; simpl; now rewrite Hb.
    + intros [[|x a] [b Hb]].
      * left; now exists b.
      * right; exists a, b; now inversion Hb.
Qed.

(** A marker already in the text stays in it whatever is appended. *)
Lemma contains_append (n h x : string) :
  PyStr.contains n h = true -> PyStr.contains n (h ++ x) = true.
Proof.
  rewrite !contains_iff; intros [a [b ->]].
  exists a, (b ++ x); now rewrite !append_assoc.
Qed.

(** ** Candidate formatting *)

Lemma candidates_checked :
  forallb formats_as_four_digits (seq 0 (Z.to_nat 10000)) = true.
Proof. vm_compute; reflexivity. Qed.

Lemma candidate_four_digits (p : Z) :
  0 <= p <= 9999 -> candidate p = four_digits p.
Proof.
  intros Hp.
  pose proof candidates_checked as H.
  rewrite forallb_forall in H.
  specialize (H (Z.to_nat p)).
  unfold formats_as_four_digits in H.
  rewrite Z2Nat.id in H by lia.
  apply String.eqb_eq, H, in_seq; lia.
Qed.

Lemma digit_value (d : Z) :
  0 <= d <= 9 -> Z.of_N (N_of_ascii (digit d)) - 48 = d.
Proof.
  intros Hd; unfold digit.
  rewrite N_ascii_embedding by lia. lia.
Qed.

Lemma digit_is_decimal (d : Z) :
  0 <= d <= 9 -> PyStr.byte_in 48 57 (digit d) = true.
Proof.
  intros Hd; unfold PyStr.byte_in, digit.
  rewrite N_ascii_embedding by lia.
  apply andb_true_iff; split; apply N.leb_le; lia.
Qed.

(** C6: for every [p] in [0, 9999] the candidate [str(p).zfill(4)] has
    exactly four characters, all decimal digits, is [p] written in decimal
    and padded with zeros on the left; 0, 42 and 9999 give "0000", "0042"
    and "9999". *)
Theorem candidate_is_four_digit_decimal (p : Z) :
  0 <= p <= 9999 ->
  String.length (candidate p) = 4%nat
  /\ candidate p = four_digits p
  /\ (forall c, In c (list_ascii_of_string (candidate p)) ->
                PyStr.byte_in 48 57 c = true)
  /\ decimal_value 0 (candidate p) = p
  /\ candidate 0 = "0000" /\ candidate 42 = "0042"
  /\ candidate 9999 = "9999".
Proof.
  intros Hp. rewrite (candidate_four_digits p Hp).
  assert (H3 : 0 <= p / 1000 <= 9) by (Z.div_mod_to_equations; lia).
  assert (H2 : 0 <= p / 100 mod 10 <= 9) by (Z.div_mod_to_equations; lia).
  assert (H1 : 0 <= p / 10 mod 10 <= 9) by (Z.div_mod_to_equations; lia).
  assert (H0 : 0 <= p mod 10 <= 9) by (Z.div_mod_to_equations; lia).
  repeat split; try reflexivity.
  - unfold four_digits; simpl.
    intros c [<- | [<- | [<- | [<- | []]]]]; now apply digit_is_decimal.
  - unfold four_digits; cbn [decimal_value].
    rewrite !digit_value by assumption.
    Z.div_mod_to_equations; lia.
Qed.

Lemma candidate_is_four_digit_decimal_witness :
  String.length (candidate 7) = 4%nat /\ candidate 7 = "0007".
Proof.
  destruct (candidate_is_four_digit_decimal 7 ltac:(lia)) as (Hl & Hd & _).
  split; [exact Hl | exact Hd].
Defined.

Section Mechanics.

Context {T : Type} (D : Serial T) (controller : Z -> bool).

Lemma open_port_cases st :
  let t := serial_port st in
  (is_open D t = true /\ open_port D st = (Ok tt, st))
  \/ (is_open D t = false
      /\ open_port D st
         = match open D t with
           | (Ok _, t1) =>
               (Ok tt,
                set_logging (logging st ++ [Opened (port D t1)])
                  (set_serial_port t1 st))
           | (Raise e, t1) => (Raise e, set_serial_port t1 st)
           end).
Proof.
  cbv [open_port bind gets call log modify ret].
  cbn [event_level level_rank Nat.leb].
  destruct (is_open D (serial_port st)); [left; now split | right].
  split; [reflexivity|]. cbn [negb].
  now destruct (open D (serial_port st)) as [[[]|e] t1].
Qed.

Lemma close_port_cases st :
  let t := serial_port st in
  (is_open D t = false /\ close_port D st = (Ok tt, st))
  \/ (is_open D t = true
      /\ close_port D st
         = match close D t with
           | (Ok _, t1) =>
               (Ok tt,
                set_logging (logging st ++ [Closed (port D t1)])
                  (set_serial_port t1 st))
           | (Raise e, t1) => (Raise e, set_serial_port t1 st)
           end).
Proof.
  cbv [close_port bind gets call log modify ret].
  cbn [event_level level_rank Nat.leb].
  destruct (is_open D (serial_port st)); [right | left; now split].
  split; [reflexivity|].
  now destruct (close D (serial_port st)) as [[[]|e] t1].
Qed.

(** With a reliable driver [close_port] returns, leaves the port closed and
    logs at most the one record. *)
Lemma close_port_reliable `{R : !Reliable D} st :
  exists st',
    close_port D st = (Ok tt, st')
    /\ is_open D (serial_port st') = false
    /\ stop_count st' = stop_count st /\ pin st' = pin st /\ rx st' = rx st
    /\ (st' = st
        \/ exists p, logging st' = (logging st ++ [Closed p])%list).
Proof.
  destruct (close_port_cases st) as [[Hc ->] | [Ho ->]].
  - exists st; auto 10.
  - destruct (close_closes _ Ho) as [Hr Hc].
    destruct (close D (serial_port st)) as [r t1]; cbn in Hr, Hc; subst r.
    eexists; split; [reflexivity|]; cbn; eauto 10.
Qed.

Lemma close_port_noop st :
  is_open D (serial_port st) = false -> close_port D st = (Ok tt, st).
Proof.
  intros Hc. unfold close_port, bind, gets. now rewrite Hc.
Qed.

Lemma verify_pin_cases p st :
  forall r st', verify_pin D p st = (r, st') ->
  stop_count st' = stop_count st /\ pin st' = pin st
  /\ logging st' = logging st
  /\ match r with
     | Ok v => (exists s, rx st' = rx st ++ s) /\ v = classify (rx st')
     | Raise _ => rx st' = rx st
     end.
Proof.
  intros r st'.
  unfold verify_pin, send_command, read_response, call, bind, log, decode,
    gets, modify, ret, raise; simpl.
  destruct (write D _ (serial_port st)) as [[n|e] t1]; simpl.
  2:{ intros [= <- <-]; simpl; auto. }
  destruct (sleep D t1) as [[[]|e] t2]; simpl.
  2:{ intros [= <- <-]; simpl; auto. }
  destruct (in_waiting D t2) as [[k|e] t3]; simpl.
  2:{ intros [= <- <-]; simpl; auto. }
  destruct (read D k t3) as [[b|e] t4]; simpl.
  2:{ intros [= <- <-]; simpl; auto. }
  destruct (PyStr.valid_utf8 b); simpl.
  2:{ intros [= <- <-]; simpl; auto. }
  unfold classify.
  destruct (PyStr.contains "Hash valid" (rx st ++ b)) eqn:Ev; simpl.
  { intros [= <- <-]; simpl. rewrite Ev. eauto 6. }
  destruct (PyStr.contains "Hash invalid" (rx st ++ b)) eqn:Ei; simpl;
    intros [= <- <-]; simpl; rewrite Ev, Ei; eauto 6.
Qed.

Lemma try_candidate_cases i st :
  let st0 := if controller i then set_stop_count true st else st in
  let st1 := set_logging (logging st0 ++ [Trying (candidate i)]) st0 in
  (stop_count st0 = true
   /\ try_candidate D controller i st
      = (Ok Break, set_logging (logging st0 ++ [Stopped]) st0))
  \/ (stop_count st0 = false
      /\ try_candidate D controller i st
         = match verify_pin D (candidate i) st1 with
           | (Ok (Some true), st2) =>
               (Ok Break,
                set_pin (candidate i)
                  (set_logging (logging st2 ++ [Found (candidate i)]) st2))
           | (Ok (Some false), st2) =>
               (Ok Next, set_logging (logging st2 ++ [Invalid (candidate i)]) st2)
           | (Ok None, st2) =>
               (Ok Next,
                set_logging (logging st2 ++ [NoResponse (candidate i)]) st2)
           | (Raise e, st2) => (Raise e, st2)
           end).
Proof.
  cbv [try_candidate outside bind gets modify log ret].
  cbn [event_level level_rank Nat.leb].
  destruct (controller i); cbn [stop_count set_stop_count].
  - left; split; reflexivity.
  - destruct (stop_count st) eqn:Es; [left; split; reflexivity|].
    right; split; [reflexivity|].
    destruct (verify_pin D (candidate i) _) as [[[[|]|]|e] st2]; reflexivity.
Qed.

Lemma for_range_step n i (body : Z -> M T flow) st :
  for_range (S n) i body st
  = match body i st with
    | (Ok Break, st1) => (Ok tt, st1)
    | (Ok Next, st1) => for_range n (i + 1) body st1
    | (Raise e, st1) => (Raise e, st1)
    end.
Proof.
  cbn [for_range]; unfold bind.
  now destruct (body i st) as [[[|]|e] st1].
Qed.

(** Every run of the loop follows [scan_run]; the lemma also says what the
    run did to the attributes. *)
Lemma loop_conforms n : forall i st r st',
  for_range n i (try_candidate D controller) st = (r, st') ->
  exists evs en,
    logging st' = (logging st ++ evs)%list
    /\ scan_run controller (stop_count st) i n evs en
    /\ (exists s, rx st' = rx st ++ s)
    /\ match en with
       | Exhausted =>
           r = Ok tt /\ pin st' = pin st /\ stop_count st' = stop_count st
       | PinFound p =>
           r = Ok tt /\ pin st' = p /\ stop_count st' = stop_count st
           /\ classify (rx st') = Some true
       | UserStopped =>
           r = Ok tt /\ pin st' = pin st /\ stop_count st' = true
       | Failed e =>
           r = Raise e /\ pin st' = pin st /\ stop_count st' = stop_count st
       end.
Proof.
  induction n as [|n IH]; intros i st r st'.
  - cbn; intros [= <- <-].
    exists [], Exhausted. rewrite app_nil_r.
    repeat split; try constructor. exists ""; now rewrite append_nil_r.
  - rewrite for_range_step.
    destruct (try_candidate_cases i st) as [[Hs ->] | [Hs ->]].
    + intros [= <- <-].
      exists [Stopped], UserStopped; cbn.
      repeat split.
      * now destruct (controller i).
      * constructor. destruct (controller i); [apply orb_true_r|].
        cbn in Hs; now rewrite Hs.
      * exists ""; rewrite append_nil_r; now destruct (controller i).
      * now destruct (controller i).
      * exact Hs.
    + destruct (controller i) eqn:Ec; [discriminate Hs|].
      destruct (verify_pin D (candidate i) _) as [rv st2] eqn:Ev.
      apply verify_pin_cases in Ev.
      cbn [stop_count pin logging rx set_logging] in Ev.
      destruct Ev as (Hstop & Hpin & Hlog & Hrx).
      rewrite Hs.
      destruct rv as [[[|]|]|e].
      * (* valid *)
        intros [= <- <-]. destruct Hrx as [Hrx Hc].
        exists [Trying (candidate i); Found (candidate i)],
          (PinFound (candidate i)); cbn.
        rewrite Hlog, <- app_assoc.
        repeat split; auto; try congruence.
        now constructor.
      * (* invalid *)
        intros Hrun. apply IH in Hrun.
        destruct Hrun as (evs & en & Hl & Hr & [s Hs'] & Hen).
        cbn [stop_count pin logging rx set_logging] in *.
        destruct Hrx as [[s0 Hrx] _].
        exists (Trying (candidate i) :: Invalid (candidate i) :: evs), en.
        repeat split.
        -- rewrite Hl, Hlog, <- !app_assoc. reflexivity.
        -- constructor; [exact Ec|]. now rewrite <- Hs, <- Hstop.
        -- exists (s0 ++ s). now rewrite Hs', Hrx, append_assoc.
        -- destruct en; intuition congruence.
      * (* no conclusive answer *)
        intros Hrun. apply IH in Hrun.
        destruct Hrun as (evs & en & Hl & Hr & [s Hs'] & Hen).
        cbn [stop_count pin logging rx set_logging] in *.
        destruct Hrx as [[s0 Hrx] _].
        exists (Trying (candidate i) :: NoResponse (candidate i) :: evs), en.
        repeat split.
        -- rewrite Hl, Hlog, <- !app_assoc. reflexivity.
        -- constructor; [exact Ec|]. now rewrite <- Hs, <- Hstop.
        -- exists (s0 ++ s). now rewrite Hs', Hrx, append_assoc.
        -- destruct en; intuition congruence.
      * (* verify_pin raised *)
        intros [= <- <-].
        exists [Trying (candidate i)], (Failed e); cbn.
        repeat split; auto; try congruence.
        -- now constructor.
        -- exists ""; now rewrite append_nil_r.
Qed.

Lemma scan_conforms start stop st r st' :
  scan D controller start stop st = (r, st') ->
  exists evs en,
    try_run controller (stop_count st) start stop evs en
    /\ logging st' = (logging st ++ evs)%list
    /\ (exists s, rx st' = rx st ++ s)
    /\ ends_as en r st st'.
Proof.
  unfold scan, bind.
  destruct (open_port_cases st) as [[Ho ->] | [Hc ->]].
  - intros Hrun. apply loop_conforms in Hrun.
    destruct Hrun as (evs & en & Hl & Hr & Hx & He).
    exists evs, en. repeat split; auto.
    apply (try_scanned _ _ _ _ [] evs en); auto.
  - destruct (open D (serial_port st)) as [[[]|e] t1].
    + intros Hrun. apply loop_conforms in Hrun.
      destruct Hrun as (evs & en & Hl & Hr & Hx & He).
      cbn [logging rx pin stop_count set_logging set_serial_port] in *.
      exists ([Opened (port D t1)] ++ evs)%list, en.
      split; [apply try_scanned; eauto|].
      split; [now rewrite Hl, <- app_assoc|].
      split; [exact Hx|].
      destruct en; exact He.
    + intros [= <- <-].
      exists [], (Failed e). cbn. rewrite app_nil_r.
      repeat split; auto; [constructor|].
      exists ""; now rewrite append_nil_r.
Qed.

(** The [try] block under its [except] clauses. *)
Lemma guarded_scan_conforms start stop st r st' :
  try_except (scan D controller start stop) handlers st = (r, st') ->
  exists evs en,
    try_run controller (stop_count st) start stop evs en
    /\ logging st' = (logging st ++ evs ++ report en)%list
    /\ (exists s, rx st' = rx st ++ s)
    /\ ends_as en (fst (scan D controller start stop st)) st st'
    /\ r = result en.
Proof.
  unfold try_except.
  destruct (scan D controller start stop st) as [r0 st0] eqn:Es.
  apply scan_conforms in Es.
  destruct Es as (evs & en & Ht & Hl & Hx & He).
  cbn [fst].
  destruct en as [|p| |e]; cbn in He.
  1-3: destruct He as [-> He]; intros [= <- <-];
    eexists evs, _; (split; [exact Ht|]); cbn; rewrite app_nil_r; auto 10.
  destruct He as (-> & Hp & Hs).
  exists evs, (Failed e); split; [exact Ht|].
  destruct e as [m|b|m|m]; cbn in H |- *;
    cbv [log modify] in H; cbn in H; injection H as <- <-; cbn;
    rewrite ?app_nil_r, ?Hl, <- ?app_assoc; auto 10.
Qed.

(** The whole of [find_code]: the guarded [try] block, then [close_port]. *)
Lemma find_code_conforms start stop st r st' :
  find_code D controller start stop st = (r, st') ->
  exists evs en closing,
    try_run controller (stop_count st) start stop evs en
    /\ logging st' = (logging st ++ evs ++ report en ++ closing)%list
    /\ (closing = [] \/ exists p, closing = [Closed p])
    /\ (exists s, rx st' = rx st ++ s)
    /\ ends_as en (fst (scan D controller start stop st)) st st'
    /\ (Reliable D -> r = result en /\ is_open D (serial_port st') = false).
Proof.
  unfold find_code, try_finally.
  destruct (try_except _ _ st) as [r0 st0] eqn:Eg.
  apply guarded_scan_conforms in Eg.
  destruct Eg as (evs & en & Ht & Hl & Hx & He & Hr).
  destruct (close_port_cases st0) as [[Hc ->] | [Ho ->]].
  - intros [= <- <-]. exists evs, en, []. rewrite !app_nil_r. auto 10.
  - destruct (close D (serial_port st0)) as [[[]|e] t1] eqn:Ec.
    + intros [= <- <-]. exists evs, en, [Closed (port D t1)].
      split; [exact Ht|].
      split; [cbn; now rewrite Hl, <- !app_assoc|].
      split; [eauto|]. split; [exact Hx|].
      split; [destruct en; exact He|].
      intros R. split; [exact Hr|].
      destruct (close_closes _ Ho) as [_ Hcl]. now rewrite Ec in Hcl.
    + intros [= <- <-]. exists evs, en, [].
      split; [exact Ht|].
      split; [cbn; now rewrite Hl, !app_nil_r|].
      split; [auto|]. split; [exact Hx|].
      split; [destruct en; exact He|].
      intros R. destruct (close_closes _ Ho) as [Hok _].
      rewrite Ec in Hok. discriminate Hok.
Qed.

End Mechanics.

(** ** The trace grammar *)

Lemma tried_app (a b : list event) : tried (a ++ b) = (tried a ++ tried b)%list.
Proof.
  induction a as [|ev a IH]; [reflexivity|].
  destruct ev; cbn; now rewrite IH.
Qed.

Lemma zseq_length i n : List.length (zseq i n) = n.
Proof. revert i; induction n as [|n IH]; intros i; cbn; [|rewrite IH]; reflexivity. Qed.

(** The candidates a run probes are the first [k] of the range, in order;
    all of them on exhaustion, and the last one is the code on success. *)
Lemma scan_run_tried ctl flag i n evs en :
  scan_run ctl flag i n evs en ->
  exists k, (k <= n)%nat
    /\ tried evs = map candidate (zseq i k)
    /\ (en = Exhausted -> k = n)
    /\ (forall p, en = PinFound p ->
          (0 < k)%nat /\ p = candidate (i + Z.of_nat k - 1)).
Proof.
  induction 1 as [flag i | flag i n Hf | i n Hc | i n e Hc
                 | i n evs en Hc Hrun IH | i n evs en Hc Hrun IH].
  - exists 0%nat; repeat split; auto; discriminate.
  - exists 0%nat; repeat split; try lia; try discriminate. 
  - exists 1%nat; repeat split; try lia; try discriminate.
    inversion H; f_equal; lia.
  - exists 1%nat; repeat split; try lia; discriminate.
  - destruct IH as (k & Hk & Ht & He & Hp).
    exists (S k); repeat split; try lia.
    + cbn; now rewrite Ht.
    + intros E; rewrite (He E); reflexivity.
    + destruct (Hp p H) as [_ ->]. f_equal; lia.
  - destruct IH as (k & Hk & Ht & He & Hp).
    exists (S k); repeat split; try lia.
    + cbn; now rewrite Ht.
    + intros E; rewrite (He E); reflexivity.
    + destruct (Hp p H) as [_ ->]. f_equal; lia.
Qed.

(** Once the flag is set, by the time candidate [i + m] is polled at the
    latest, at most [m] candidates have been probed. *)
Lemma scan_run_stops ctl flag i n evs en :
  scan_run ctl flag i n evs en ->
  forall m, flag = true \/ (exists j, (j <= m)%nat /\ ctl (i + Z.of_nat j) = true) ->
  (List.length (tried evs) <= m)%nat.
Proof.
  assert (shift : forall i m, ctl i = false ->
            (exists j, (j <= m)%nat /\ ctl (i + Z.of_nat j) = true) ->
            exists m', m = S m'
              /\ exists j, (j <= m')%nat /\ ctl (i + 1 + Z.of_nat j) = true).
  { intros i0 m Hc (j & Hj & Hset).
    destruct j as [|j]; [rewrite Z.add_0_r in Hset; congruence|].
    destruct m as [|m']; [lia|].
    exists m'; split; [reflexivity|]. exists j; split; [lia|].
    now replace (i0 + 1 + Z.of_nat j) with (i0 + Z.of_nat (S j)) by lia. }
  induction 1 as [flag i | flag i n Hf | i n Hc | i n e Hc
                 | i n evs en Hc Hrun IH | i n evs en Hc Hrun IH];
    intros m Hm; cbn; try lia.
  all: destruct Hm as [Hm | Hm]; [discriminate Hm|].
  all: destruct (shift _ _ Hc Hm) as (m' & -> & Hm'); try lia.
  all: specialize (IH m' (or_intror Hm')); lia.
Qed.

(** A stop is the flag's doing: it was set on entry or the outside set it
    at a polled candidate. *)
Lemma scan_run_stop_cause ctl flag i n evs :
  scan_run ctl flag i n evs UserStopped ->
  flag = true
  \/ exists j, i <= j < i + Z.of_nat n /\ ctl j = true.
Proof.
  remember UserStopped as en eqn:Een.
  induction 1 as [flag i | flag i n Hf | i n Hc | i n e Hc
                 | i n evs en Hc Hrun IH | i n evs en Hc Hrun IH];
    try discriminate.
  - apply orb_true_iff in Hf as [Hf | Hf]; [now left | right].
    exists i; split; [lia | exact Hf].
  - destruct (IH Een) as [Hf | (j & Hj & Hset)]; [discriminate|].
    right; exists j; split; [lia | exact Hset].
  - destruct (IH Een) as [Hf | (j & Hj & Hset)]; [discriminate|].
    right; exists j; split; [lia | exact Hset].
Qed.

Lemma try_run_tried ctl flag start stop evs en :
  try_run ctl flag start stop evs en ->
  exists k, (k <= Z.to_nat (stop + 1 - start))%nat
    /\ tried evs = map candidate (zseq start k)
    /\ (en = Exhausted -> k = Z.to_nat (stop + 1 - start))
    /\ (forall p, en = PinFound p ->
          (0 < k)%nat /\ p = candidate (start + Z.of_nat k - 1))
    /\ (forall m, flag = true
                  \/ (exists j, (j <= m)%nat /\ ctl (start + Z.of_nat j) = true) ->
                  (k <= m)%nat).
Proof.
  intros [e | opened evs' en' Ho Hrun].
  - exists 0%nat; repeat split; try lia; discriminate.
  - destruct (scan_run_tried _ _ _ _ _ _ Hrun) as (k & Hk & Ht & He & Hp).
    assert (Hevs : tried (opened ++ evs') = tried evs')
      by (destruct Ho as [-> | [p ->]]; reflexivity).
    exists k; rewrite Hevs.
    split; [exact Hk|]. split; [exact Ht|]. split; [exact He|].
    split; [exact Hp|].
    intros m Hm. pose proof (scan_run_stops _ _ _ _ _ _ Hrun m Hm) as Hb.
    now rewrite Ht, length_map, zseq_length in Hb.
Qed.

Lemma tried_report en : tried (report en) = [].
Proof. destruct en as [|p| |e]; try reflexivity. now destruct e. Qed.

Lemma scan_run_found ctl flag i n evs en :
  scan_run ctl flag i n evs en ->
  forall q, In (Found q) evs <-> en = PinFound q.
Proof.
  induction 1 as [flag i | flag i n Hf | i n Hc | i n e Hc
                 | i n evs en Hc Hrun IH | i n evs en Hc Hrun IH];
    intros q; cbn.
  - split; [tauto | discriminate].
  - split; [intros [|[]]; discriminate | discriminate].
  - split.
    + intros [|[[= ->]|[]]]; [discriminate | reflexivity].
    + intros [= ->]; auto.
  - split; [intros [|[]]; discriminate | discriminate].
  - rewrite <- IH. split; [intros [|[|]]; [discriminate..|assumption] | auto].
  - rewrite <- IH. split; [intros [|[|]]; [discriminate..|assumption] | auto].
Qed.

Lemma try_run_found ctl flag start stop evs en :
  try_run ctl flag start stop evs en ->
  forall q, In (Found q) evs <-> en = PinFound q.
Proof.
  intros [e | opened evs' en' Ho Hrun] q.
  - split; [intros [] | discriminate].
  - rewrite <- (scan_run_found _ _ _ _ _ _ Hrun q), in_app_iff.
    destruct Ho as [-> | [p ->]]; cbn; [tauto|].
    split; [intros [[|[]]|]; [discriminate | assumption] | auto].
Qed.

Lemma try_run_stop_cause ctl flag start stop evs :
  try_run ctl flag start stop evs UserStopped ->
  flag = true \/ exists i, start <= i <= stop /\ ctl i = true.
Proof.
  inversion 1 as [| opened evs' en' Ho Hrun]; subst.
  destruct (scan_run_stop_cause _ _ _ _ _ Hrun) as [Hf | (j & Hj & Hset)];
    [now left | right].
  exists j; split; [lia | exact Hset].
Qed.

(** ** One exchange with the unit *)

Section Exchange.

Context {T : Type} (D : Serial T).

Lemma read_response_returns st k t1 b t2 :
  in_waiting D (serial_port st) = (Ok k, t1) ->
  read D k t1 = (Ok b, t2) ->
  PyStr.valid_utf8 b = true ->
  read_response D st
  = (Ok (rx st ++ b), set_rx (rx st ++ b) (set_serial_port t2 st)).
Proof.
  intros Hw Hr Hv.
  cbv [read_response bind call decode gets modify log ret raise].
  cbn [event_level level_rank Nat.leb serial_port set_serial_port].
  rewrite Hw; cbn [serial_port set_serial_port]. rewrite Hr, Hv.
  reflexivity.
Qed.

Lemma verify_pin_returns p st n t1 t2 k t3 b t4 :
  write D (command_line p) (serial_port st) = (Ok n, t1) ->
  sleep D t1 = (Ok tt, t2) ->
  in_waiting D t2 = (Ok k, t3) ->
  read D k t3 = (Ok b, t4) ->
  PyStr.valid_utf8 b = true ->
  verify_pin D p st
  = (Ok (classify (rx st ++ b)),
     set_rx (rx st ++ b) (set_serial_port t4 st)).
Proof.
  intros Hwr Hs Hw Hr Hv.
  cbv [verify_pin send_command read_response bind call decode gets modify
       log ret raise].
  cbn [event_level level_rank Nat.leb serial_port set_serial_port].
  unfold command_line in Hwr. rewrite Hwr.
  cbn [serial_port set_serial_port]. rewrite Hs.
  cbn [serial_port set_serial_port]. rewrite Hw.
  cbn [serial_port set_serial_port]. rewrite Hr, Hv.
  cbn [rx pin stop_count logging serial_port set_rx set_serial_port].
  unfold classify.
  destruct (PyStr.contains "Hash valid" (rx st ++ b)); [reflexivity|].
  destruct (PyStr.contains "Hash invalid" (rx st ++ b)); reflexivity.
Qed.

(** The reading of a text, in terms of what occurs in it. *)
Lemma classify_spec (text : string) (v : option bool) :
  classify text = v ->
  (v = Some true <-> occurs_in "Hash valid" text)
  /\ (v = Some false <->
      occurs_in "Hash invalid" text /\ ~ occurs_in "Hash valid" text)
  /\ (v = None <->
      ~ occurs_in "Hash valid" text /\ ~ occurs_in "Hash invalid" text).
Proof.
  unfold classify, occurs_in. intros <-.
  rewrite <- !contains_iff.
  destruct (PyStr.contains "Hash valid" text);
    destruct (PyStr.contains "Hash invalid" text);
    intuition (try discriminate; try congruence).
Qed.

End Exchange.

(** ** Runs in which the answers are known *)

Section Scenarios.

Context {T : Type} (D : Serial T) (controller : Z -> bool).
Variable Inv : T -> string -> Prop.

(** While the answers are [v], not [True], the loop moves from candidate to
    candidate: after [n] of them the rest of the loop is still to run. *)
Lemma loop_skips (v : option bool) (n : nat) :
  forall (m : nat) (i : Z) (st : RNS510CodeFinder T),
  v <> Some true ->
  (forall j, i <= j < i + Z.of_nat n -> controller j = false) ->
  stop_count st = false ->
  Inv (serial_port st) (rx st) ->
  (forall j s, i <= j < i + Z.of_nat n -> Inv (serial_port s) (rx s) ->
     exists s', verify_pin D (candidate j) s = (Ok v, s')
                /\ Inv (serial_port s') (rx s')) ->
  exists st',
    for_range (n + m) i (try_candidate D controller) st
    = for_range m (i + Z.of_nat n) (try_candidate D controller) st'
    /\ Inv (serial_port st') (rx st')
    /\ stop_count st' = false /\ pin st' = pin st
    /\ logging st' = (logging st ++ rounds v i n)%list.
Proof.
  induction n as [|n IH]; intros m i st Hv Hq Hs Hi Hver.
  - exists st. cbn. rewrite Z.add_0_r, app_nil_r. auto.
  - change (S n + m)%nat with (S (n + m)). rewrite for_range_step.
    pose proof (Hq i ltac:(lia)) as Hc.
    pose proof (try_candidate_cases D controller i st) as Hcases.
    rewrite Hc in Hcases. cbn zeta in Hcases.
    destruct Hcases as [[Hs' _] | [_ ->]]; [congruence|].
    destruct (Hver i (set_logging (logging st ++ [Trying (candidate i)]) st)
                ltac:(lia) Hi) as (s' & Ev & Hi').
    rewrite Ev.
    apply verify_pin_cases in Ev.
    cbn [stop_count pin logging rx set_logging] in Ev.
    destruct Ev as (Hstop & Hpin & Hlog & _).
    assert (Hnext :
      exists st',
        for_range (n + m) (i + 1) (try_candidate D controller)
          (set_logging (logging s' ++ [skip_record v (candidate i)]) s')
        = for_range m (i + Z.of_nat (S n)) (try_candidate D controller) st'
        /\ Inv (serial_port st') (rx st')
        /\ stop_count st' = false /\ pin st' = pin st
        /\ logging st' = (logging st ++ rounds v i (S n))%list).
    { destruct (IH m (i + 1)
                  (set_logging (logging s' ++ [skip_record v (candidate i)]) s')
                  Hv) as (st' & Erun & Hi'' & Hs'' & Hp'' & Hl'').
      - intros j Hj; apply Hq; lia.
      - cbn; congruence.
      - exact Hi'.
      - intros j s Hj; apply Hver; lia.
      - exists st'. cbn [stop_count pin logging rx set_logging] in *.
        replace (i + Z.of_nat (S n)) with (i + 1 + Z.of_nat n) by lia.
        split; [exact Erun|]. split; [exact Hi''|]. split; [exact Hs''|].
        split; [congruence|].
        rewrite Hl'', Hlog. unfold rounds. cbn [zseq flat_map].
        rewrite <- !app_assoc. reflexivity. }
    destruct v as [[|]|]; [congruence | exact Hnext | exact Hnext].
Qed.

(** A candidate answered with [True] ends the loop. *)
Lemma loop_finds m i (st s' : RNS510CodeFinder T) :
  controller i = false ->
  stop_count st = false ->
  verify_pin D (candidate i)
    (set_logging (logging st ++ [Trying (candidate i)]) st)
  = (Ok (Some true), s') ->
  for_range (S m) i (try_candidate D controller) st
  = (Ok tt,
     set_pin (candidate i)
       (set_logging (logging s' ++ [Found (candidate i)]) s')).
Proof.
  intros Hc Hs Ev. rewrite for_range_step.
  pose proof (try_candidate_cases D controller i st) as Hcases.
  rewrite Hc in Hcases. cbn zeta in Hcases.
  destruct Hcases as [[Hs' _] | [_ ->]]; [congruence|].
  now rewrite Ev.
Qed.

(** A [try] block that ran through: what is left is [close_port]. *)
Lemma find_code_after_scan (R : Reliable D) start stop
  (st st1 : RNS510CodeFinder T) :
  scan D controller start stop st = (Ok tt, st1) ->
  exists st2 closing,
    find_code D controller start stop st = (Ok tt, st2)
    /\ is_open D (serial_port st2) = false
    /\ stop_count st2 = stop_count st1 /\ pin st2 = pin st1
    /\ rx st2 = rx st1
    /\ logging st2 = (logging st1 ++ closing)%list
    /\ (closing = [] \/ exists p, closing = [Closed p]).
Proof.
  intros Es. unfold find_code, try_finally, try_except. rewrite Es.
  destruct (close_port_reliable D (R := R) st1)
    as (st2 & E2 & Hc & Hs & Hp & Hx & Hl).
  rewrite E2. destruct Hl as [-> | [p Hl]].
  - exists st1, []. rewrite app_nil_r. auto 10.
  - exists st2, [Closed p]. eauto 12.
Qed.

Lemma scan_after_open start stop (st st0 : RNS510CodeFinder T) :
  open_port D st = (Ok tt, st0) ->
  scan D controller start stop st
  = for_range (Z.to_nat (stop + 1 - start)) start
      (try_candidate D controller) st0
  /\ stop_count st0 = stop_count st /\ pin st0 = pin st /\ rx st0 = rx st
  /\ exists opened, logging st0 = (logging st ++ opened)%list
       /\ (opened = [] \/ exists p, opened = [Opened p]).
Proof.
  intros Eo. unfold scan, bind. rewrite Eo. split; [reflexivity|].
  destruct (open_port_cases D st) as [[_ E] | [_ E]]; rewrite E in Eo.
  - injection Eo as <-. repeat split; auto.
    exists []; rewrite app_nil_r; auto.
  - destruct (open D (serial_port st)) as [[[]|e] t1]; [|discriminate].
    injection Eo as <-. cbn. repeat split; auto. eauto.
Qed.

End Scenarios.

(** ** The simulated port *)

Lemma sim_reliable device open_error : Reliable (sim device open_error).
Proof. intros t _; split; reflexivity. Qed.

Lemma prefix_append_false (n : string) : forall a x,
  no_overlap n x = true ->
  String.prefix n a = false -> String.prefix n (a ++ x) = false.
Proof.
  induction n as [|d n IH]; intros a x Hno Hp.
  - destruct a; discriminate Hp.
  - cbn [no_overlap] in Hno. apply andb_true_iff in Hno as [Hx Hno].
    destruct a as [|c r].
    + cbn [append]. now apply negb_true_iff.
    + cbn [append]. simpl in Hp |- *.
      destruct (ascii_dec d c); [now apply IH | reflexivity].
Qed.

(** Appending a text that holds no occurrence of the needle and starts with
    no end of it creates no occurrence. *)
Lemma contains_append_false (n a x : string) :
  no_overlap n x = true ->
  PyStr.contains n x = false ->
  PyStr.contains n a = false ->
  PyStr.contains n (a ++ x) = false.
Proof.
  intros Hno Hx. induction a as [|c r IH]; intros Ha; [exact Hx|].
  cbn [PyStr.contains] in Ha. apply orb_false_iff in Ha as [Hp Hr].
  change (String c r ++ x) with (String c (r ++ x)).
  cbn [PyStr.contains]. apply orb_false_iff; split; [|now apply IH].
  exact (prefix_append_false n (String c r) x Hno Hp).
Qed.

Lemma substring_all (s : string) : String.substring 0 (String.length s) s = s.
Proof. induction s as [|c s IH]; cbn; [reflexivity | now rewrite IH]. Qed.

Lemma substring_tail (s : string) :
  String.substring (String.length s) (String.length s - String.length s) s
  = "".
Proof. induction s as [|c s IH]; cbn; [reflexivity | exact IH]. Qed.

(** One exchange with the simulated port, open and drained: the answer of
    the unit is appended to the buffer and the port is drained again. *)
Lemma sim_verify_pin device open_error p (st : RNS510CodeFinder Sim) :
  sim_is_open (serial_port st) = true ->
  pending (serial_port st) = "" ->
  PyStr.valid_utf8 (device (command_line p)) = true ->
  exists st',
    verify_pin (sim device open_error) p st
    = (Ok (classify (rx st ++ device (command_line p))), st')
    /\ sim_is_open (serial_port st') = true
    /\ pending (serial_port st') = ""
    /\ wire (serial_port st')
       = (wire (serial_port st) ++ [command_line p])%list
    /\ rx st' = rx st ++ device (command_line p).
Proof.
  intros Ho Hp Hv.
  destruct st as [[o nm w pd] sc pn r lg]; cbn in Ho, Hp; subst o pd.
  pose proof (verify_pin_returns (sim device open_error) p
                {| serial_port := {| sim_is_open := true; sim_port := nm;
                                     wire := w; pending := "" |};
                   stop_count := sc; pin := pn; rx := r; logging := lg |}
                _ _ _ _ _ _ _ eq_refl eq_refl eq_refl eq_refl) as H.
  cbn [serial_port sim_port wire pending append] in H.
  rewrite substring_all, substring_tail in H.
  rewrite (H Hv). eexists; split; [reflexivity|].
  cbn. auto.
Qed.

Lemma answers_checked :
  forallb answers_as_0042 (seq 0 101) = true.
Proof. vm_compute; reflexivity. Qed.

Lemma unit_0042_answer (j : Z) :
  0 <= j <= 100 ->
  unit_with_code "0042" (command_line (candidate j))
  = if j =? 42 then "Hash valid" ++ String "010" ""
    else "Hash invalid" ++ String "010" "".
Proof.
  intros Hj. pose proof answers_checked as H.
  rewrite forallb_forall in H. specialize (H (Z.to_nat j)).
  unfold answers_as_0042 in H. rewrite Z2Nat.id in H by lia.
  apply String.eqb_eq, H, in_seq; lia.
Qed.

(** The unit that accepts "0042", seen through [verify_pin]. *)
Lemma unit_0042_verdicts (j : Z) (s : RNS510CodeFinder Sim) :
  0 <= j <= 100 ->
  sim_ready ["Hash valid"] (serial_port s) (rx s) ->
  exists s',
    verify_pin (sim (unit_with_code "0042") None) (candidate j) s
    = (Ok (if j =? 42 then Some true else Some false), s')
    /\ (j <> 42 -> sim_ready ["Hash valid"] (serial_port s') (rx s')).
Proof.
  intros Hj (Ho & Hp & Hm).
  cbn in Hm. rewrite andb_true_r in Hm. apply negb_true_iff in Hm.
  pose proof (unit_0042_answer j Hj) as Hans.
  assert (Hu : PyStr.valid_utf8
                 (unit_with_code "0042" (command_line (candidate j))) = true)
    by (rewrite Hans; now destruct (j =? 42)).
  destruct (sim_verify_pin (unit_with_code "0042") None (candidate j) s
              Ho Hp Hu) as (s' & Ev & Ho' & Hp' & _ & Hrx).
  exists s'. rewrite Ev, Hans. unfold classify.
  destruct (j =? 42) eqn:E42.
  - split; [|lia].
    rewrite (proj2 (contains_iff _ _)); [reflexivity|].
    exists (rx s), (String "010" ""). reflexivity.
  - assert (Hv : PyStr.contains "Hash valid"
                   (rx s ++ "Hash invalid" ++ String "010" "") = false)
      by (apply contains_append_false; [reflexivity | reflexivity | exact Hm]).
    rewrite Hv.
    rewrite (proj2 (contains_iff "Hash invalid" _));
      [|exists (rx s), (String "010" ""); reflexivity].
    split; [reflexivity|]. intros _.
    repeat split; auto. cbn. rewrite Hrx, Hans, Hv. reflexivity.
Qed.

(** A unit that always prints the same text with no marker in or across
    it, seen through [verify_pin]. *)
Lemma unit_saying_verdicts (text p : string) (s : RNS510CodeFinder Sim) :
  PyStr.valid_utf8 text = true ->
  no_overlap "Hash valid" text = true ->
  no_overlap "Hash invalid" text = true ->
  PyStr.contains "Hash valid" text = false ->
  PyStr.contains "Hash invalid" text = false ->
  sim_ready ["Hash valid"; "Hash invalid"] (serial_port s) (rx s) ->
  exists s',
    verify_pin (sim (unit_saying text) None) p s = (Ok None, s')
    /\ sim_ready ["Hash valid"; "Hash invalid"] (serial_port s') (rx s').
Proof.
  intros Hu Hnv Hni Hcv Hci (Ho & Hp & Hm).
  cbn in Hm. rewrite andb_true_r in Hm.
  apply andb_true_iff in Hm as [Hv Hi].
  apply negb_true_iff in Hv, Hi.
  destruct (sim_verify_pin (unit_saying text) None p s Ho Hp Hu)
    as (s' & Ev & Ho' & Hp' & _ & Hrx).
  unfold unit_saying in *.
  pose proof (contains_append_false _ _ _ Hnv Hcv Hv) as Hv'.
  pose proof (contains_append_false _ _ _ Hni Hci Hi) as Hi'.
  exists s'. rewrite Ev. unfold classify. rewrite Hv', Hi'.
  split; [reflexivity|]. repeat split; auto.
  cbn. now rewrite Hrx, Hv', Hi'.
Qed.

Lemma rounds_run ctl (v : option bool) (n : nat) : forall i,
  v <> Some true ->
  (forall j, i <= j < i + Z.of_nat n -> ctl j = false) ->
  scan_run ctl false i n (rounds v i n) Exhausted.
Proof.
  induction n as [|n IH]; intros i Hv Hq; [constructor|].
  assert (Hrest : scan_run ctl false (i + 1) n (rounds v (i + 1) n) Exhausted)
    by (apply IH; [exact Hv | intros j Hj; apply Hq; lia]).
  pose proof (Hq i ltac:(lia)) as Hc.
  unfold rounds in *. cbn [zseq flat_map app].
  destruct v as [[|]|]; [congruence | |]; cbn [skip_record].
  - now apply run_invalid.
  - now apply run_no_response.
Qed.

Lemma tried_rounds (v : option bool) (n : nat) : forall i,
  tried (rounds v i n) = map candidate (zseq i n).
Proof.
  induction n as [|n IH]; intros i; [reflexivity|].
  unfold rounds in *. cbn [zseq flat_map app map].
  destruct v as [[|]|]; cbn; now rewrite IH.
Qed.

(** *** Three runs on the simulated port, as the log and the wire show
    them *)

Example run_with_code_0003 :
  let out := find_code (sim (unit_with_code "0003") None) nobody 0 10
               (init unplugged) in
  fst out = Ok tt
  /\ pin (snd out) = "0003"
  /\ wire (serial_port (snd out)) = map command_line ["0000"; "0001"; "0002"; "0003"]
  /\ logging (snd out)
     = [Opened "COM3"; Trying "0000"; Invalid "0000"; Trying "0001";
        Invalid "0001"; Trying "0002"; Invalid "0002"; Trying "0003";
        Found "0003"; Closed "COM3"].
Proof. vm_compute. repeat split. Qed.

Example run_stopped_at_3 :
  let out := find_code (sim (unit_saying "busy") None) (fun i => i =? 3) 0 10
               (init unplugged) in
  fst out = Ok tt
  /\ pin (snd out) = "0000" /\ stop_count (snd out) = true
  /\ wire (serial_port (snd out)) = map command_line ["0000"; "0001"; "0002"]
  /\ logging (snd out)
     = [Opened "COM3"; Trying "0000"; NoResponse "0000"; Trying "0001";
        NoResponse "0001"; Trying "0002"; NoResponse "0002"; Stopped;
        Closed "COM3"].
Proof. vm_compute. repeat split. Qed.

Example run_open_fails :
  let e := SerialException "could not open port" in
  let out := find_code (sim (unit_saying "busy") (Some e)) nobody 0 10
               (init unplugged) in
  out = (Ok tt, set_logging [SerialError e] (init unplugged)).
Proof. vm_compute. reflexivity. Qed.

(** ** The claims *)

(** C1: whatever way a scan [find_code start stop] ends (code found, range
    exhausted, flag set, a transport failure, any other exception, caught
    or not), the port is closed when [find_code] hands control back.  The
    driver is assumed to close an open port without raising. *)
Theorem find_code_always_closes {T} (D : Serial T) (R : Reliable D)
  (controller : Z -> bool) (start stop : Z) (st : RNS510CodeFinder T) :
  let out := find_code D controller start stop st in
  is_open D (serial_port (snd out)) = false
  /\ exists evs en,
       try_run controller (stop_count st) start stop evs en
       /\ fst out = result en.
Proof.
  cbn zeta.
  destruct (find_code D controller start stop st) as [r st'] eqn:E.
  apply find_code_conforms in E.
  destruct E as (evs & en & closing & Ht & _ & _ & _ & _ & Hr).
  destruct (Hr R) as [-> Hc]. cbn. eauto.
Qed.

Lemma find_code_always_closes_witness :
  let out := find_code (sim (unit_with_code "0003") None) nobody 0 10
               (init unplugged) in
  is_open (sim (unit_with_code "0003") None) (serial_port (snd out)) = false
  /\ exists evs en,
       try_run nobody false 0 10 evs en /\ fst out = result en.
Proof.
  exact (find_code_always_closes (sim (unit_with_code "0003") None)
           (sim_reliable _ _) nobody 0 10 (init unplugged)).
Defined.

(** C8: [close_port] twice in a row, from any state of the port: neither
    call raises, the port is closed, the second call changes nothing, and at
    most one "Closed serial port" record is logged.  The driver is assumed to
    close an open port without raising. *)
Theorem close_port_idempotent {T} (D : Serial T) (R : Reliable D)
  (st : RNS510CodeFinder T) :
  let once := close_port D st in
  let twice := close_port D (snd once) in
  fst once = Ok tt /\ fst twice = Ok tt
  /\ snd twice = snd once
  /\ is_open D (serial_port (snd twice)) = false
  /\ (exists evs, logging (snd twice) = (logging st ++ evs)%list
                  /\ (closed_events evs <= 1)%nat)
  /\ (close_port D ;; close_port D) st = close_port D st.
Proof.
  cbn zeta. unfold bind.
  destruct (close_port_reliable D (R := R) st)
    as (st1 & E1 & Hc & _ & _ & _ & Hl).
  rewrite E1; cbn [fst snd].
  rewrite (close_port_noop D st1 Hc); cbn [fst snd].
  repeat split; auto.
  destruct Hl as [-> | [p Hl]].
  - exists []; rewrite app_nil_r; cbn; auto.
  - exists [Closed p]; cbn; auto.
Qed.

Lemma close_port_idempotent_witness :
  let D := sim (unit_saying "") None in
  let st := init (sim_set_open true unplugged) in
  fst (close_port D (snd (close_port D st))) = Ok tt
  /\ snd (close_port D (snd (close_port D st))) = snd (close_port D st).
Proof.
  destruct (close_port_idempotent (sim (unit_saying "") None)
              (sim_reliable _ _) (init (sim_set_open true unplugged)))
    as (_ & H2 & H3 & _).
  split; [exact H2 | exact H3].
Defined.

Lemma open_raise_scan {T} (D : Serial T) ctl start stop st e :
  is_open D (serial_port st) = false ->
  fst (open D (serial_port st)) = Raise e ->
  fst (scan D ctl start stop st) = Raise e.
Proof.
  intros Hc Ho. unfold scan, bind.
  destruct (open_port_cases D st) as [[Hop _] | [_ ->]]; [congruence|].
  destruct (open D (serial_port st)) as [[[]|e'] t1]; cbn in Ho |- *;
    congruence.
Qed.

(** C7: when the [try] block of [find_code] raises an [Exception] (a
    [SerialException] from the port, on [open] or later, or any other one),
    [find_code] logs the error record and returns normally with the port
    closed; and [close_port] on a port that is not open does nothing and does
    not raise.  The driver is assumed to close an open port without
    raising. *)
Theorem transport_failure_is_contained {T} (D : Serial T) (R : Reliable D)
  (controller : Z -> bool) (start stop : Z) (st : RNS510CodeFinder T)
  (e : exn) :
  fst (scan D controller start stop st) = Raise e
  \/ (is_open D (serial_port st) = false
      /\ fst (open D (serial_port st)) = Raise e) ->
  is_Exception e = true ->
  let out := find_code D controller start stop st in
  fst out = Ok tt
  /\ is_open D (serial_port (snd out)) = false
  /\ In (error_record e) (logging (snd out))
  /\ (forall st0, is_open D (serial_port st0) = false ->
                  close_port D st0 = (Ok tt, st0)).
Proof.
  intros Hfail He. cbn zeta.
  assert (Hscan : fst (scan D controller start stop st) = Raise e).
  { destruct Hfail as [H | [Hc Ho]]; [exact H|].
    now apply open_raise_scan. }
  clear Hfail.
  destruct (find_code D controller start stop st) as [r st'] eqn:E.
  apply find_code_conforms in E.
  destruct E as (evs & en & closing & Ht & Hl & _ & _ & Hen & Hr).
  destruct (Hr R) as [-> Hc]. cbn [fst snd].
  rewrite Hscan in Hen.
  destruct en as [|p| |e']; cbn in Hen; try (destruct Hen; discriminate).
  destruct Hen as [[= <-] _].
  cbn [result report] in *. rewrite He in *.
  repeat split; auto.
  - rewrite Hl. apply in_or_app; right. apply in_or_app; right.
    now left.
  - apply close_port_noop.
Qed.

Lemma transport_failure_is_contained_witness :
  let D := sim (unit_saying "") (Some (SerialException "could not open port")) in
  let out := find_code D nobody 0 10 (init unplugged) in
  fst out = Ok tt
  /\ In (SerialError (SerialException "could not open port"))
        (logging (snd out)).
Proof.
  destruct (transport_failure_is_contained
              (sim (unit_saying "") (Some (SerialException "could not open port")))
              (sim_reliable _ _) nobody 0 10 (init unplugged)
              (SerialException "could not open port")
              (or_intror (conj eq_refl eq_refl)) eq_refl)
    as (H1 & _ & H3 & _).
  split; [exact H1 | exact H3].
Defined.

(** C10: [find_code] assigns [pin] only when a candidate of the range was
    classified as valid, and then to that candidate; when the scan ends by
    exhaustion, by the flag or by an error, [pin] keeps its value, which
    after [__init__] is "0000", the same text as candidate 0.  [find_code]
    itself never writes [stop_count]: the flag differs afterwards only if the
    outside set it during the scan. *)
Theorem find_code_footprint {T} (D : Serial T) (controller : Z -> bool)
  (start stop : Z) (st : RNS510CodeFinder T) :
  let st' := snd (find_code D controller start stop st) in
  (exists evs en closing,
     logging st' = (logging st ++ evs ++ report en ++ closing)%list
     /\ try_run controller (stop_count st) start stop evs en
     /\ match en with
        | PinFound p =>
            pin st' = p /\ classify (rx st') = Some true
            /\ In (Found p) evs
            /\ exists i, start <= i <= stop /\ p = candidate i
        | _ => pin st' = pin st /\ forall p, ~ In (Found p) evs
        end)
  /\ (stop_count st' = stop_count st
      \/ (stop_count st' = true
          /\ exists i, start <= i <= stop /\ controller i = true))
  /\ ((forall i, controller i = false) -> stop_count st' = stop_count st)
  /\ (forall t : T, pin (init t) = "0000" /\ pin (init t) = candidate 0).
Proof.
  cbn zeta.
  destruct (find_code D controller start stop st) as [r st'] eqn:E.
  apply find_code_conforms in E.
  destruct E as (evs & en & closing & Ht & Hl & _ & _ & Hen & _).
  cbn [snd].
  assert (Hstop : stop_count st' = stop_count st
                  \/ (stop_count st' = true
                      /\ exists i, start <= i <= stop /\ controller i = true)).
  { destruct en as [|p| |e]; cbn in Hen; try tauto.
    destruct Hen as (_ & _ & Hs).
    destruct (try_run_stop_cause _ _ _ _ _ Ht) as [Hf | Hc].
    - left; congruence.
    - right; auto. }
  split; [|split; [exact Hstop|split]].
  - exists evs, en, closing. split; [exact Hl|]. split; [exact Ht|].
    pose proof (try_run_found _ _ _ _ _ _ Ht) as Hfound.
    destruct en as [|p| |e]; cbn in Hen.
    + split; [tauto|]. intros p Hp; apply Hfound in Hp; discriminate.
    + destruct Hen as (_ & Hp & _ & Hv).
      split; [exact Hp|]. split; [exact Hv|].
      split; [now apply Hfound|].
      destruct (try_run_tried _ _ _ _ _ _ Ht) as (k & Hk & _ & _ & Hlast & _).
      destruct (Hlast p eq_refl) as [Hpos ->].
      exists (start + Z.of_nat k - 1); split; [lia | reflexivity].
    + split; [tauto|]. intros p Hp; apply Hfound in Hp; discriminate.
    + split; [tauto|]. intros p Hp; apply Hfound in Hp; discriminate.
  - intros Hquiet. destruct Hstop as [H | (_ & i & _ & Hi)]; [exact H|].
    rewrite Hquiet in Hi; discriminate.
  - intros t; split; reflexivity.
Qed.

Lemma stopped_before_polling {T} (D : Serial T) ctl n i
  (st : RNS510CodeFinder T) :
  stop_count st = true ->
  exists st',
    for_range (S n) i (try_candidate D ctl) st = (Ok tt, st')
    /\ serial_port st' = serial_port st /\ rx st' = rx st
    /\ pin st' = pin st /\ stop_count st' = true
    /\ logging st' = (logging st ++ [Stopped])%list.
Proof.
  intros Hs. rewrite for_range_step.
  destruct (try_candidate_cases D ctl i st) as [[_ ->] | [Hn _]].
  - eexists; split; [reflexivity|].
    destruct (ctl i); cbn; auto.
  - destruct (ctl i); cbn in Hn; congruence.
Qed.

(** C5: the flag is read before each candidate is tried: a loop entered
    with the flag set probes nothing, leaves the port and the buffer as they
    are and logs the stop.  If the flag is set by the time candidate 3 is
    polled, [find_code 0 10] probes at most three candidates, and the port is
    closed afterwards.  The driver is assumed to close an open port without
    raising. *)
Theorem cancellation_stops_probing {T} (D : Serial T) (R : Reliable D)
  (controller : Z -> bool) (st : RNS510CodeFinder T) :
  (forall n i st0, stop_count st0 = true ->
     exists st1,
       for_range (S n) i (try_candidate D controller) st0 = (Ok tt, st1)
       /\ serial_port st1 = serial_port st0 /\ rx st1 = rx st0
       /\ pin st1 = pin st0 /\ stop_count st1 = true
       /\ logging st1 = (logging st0 ++ [Stopped])%list)
  /\ (stop_count st = true
      \/ (exists k, 0 <= k <= 3 /\ controller k = true) ->
      let out := find_code D controller 0 10 st in
      exists new,
        logging (snd out) = (logging st ++ new)%list
        /\ (List.length (tried new) <= 3)%nat
        /\ is_open D (serial_port (snd out)) = false).
Proof.
  split; [intros n i st0; apply stopped_before_polling|].
  intros Hset. cbn zeta.
  destruct (find_code D controller 0 10 st) as [r st'] eqn:E.
  apply find_code_conforms in E.
  destruct E as (evs & en & closing & Ht & Hl & Hcl & _ & _ & Hr).
  destruct (Hr R) as [_ Hc]. cbn [snd].
  exists (evs ++ report en ++ closing)%list.
  split; [exact Hl|]. split; [|exact Hc].
  rewrite !tried_app, tried_report.
  assert (Hclosing : tried closing = [])
    by (destruct Hcl as [-> | [p ->]]; reflexivity).
  rewrite Hclosing, app_nil_r.
  destruct (try_run_tried _ _ _ _ _ _ Ht) as (k & _ & Htr & _ & _ & Hbound).
  rewrite Htr, length_map, zseq_length.
  apply Hbound.
  destruct Hset as [Hf | (j & Hj & Hcj)]; [now left | right].
  exists (Z.to_nat j); split; [lia|].
  now replace (0 + Z.of_nat (Z.to_nat j)) with j by lia.
Qed.

Lemma cancellation_stops_probing_witness :
  let D := sim (unit_saying "busy") None in
  let out := find_code D (fun i => i =? 3) 0 10 (init unplugged) in
  exists new,
    logging (snd out) = (logging (init unplugged) ++ new)%list
    /\ (List.length (tried new) <= 3)%nat
    /\ is_open D (serial_port (snd out)) = false.
Proof.
  refine (proj2 (cancellation_stops_probing (sim (unit_saying "busy") None)
                   (sim_reliable _ _) (fun i => i =? 3) (init unplugged)) _).
  right; exists 3; split; [lia | reflexivity].
Defined.

(** C2, as the code has it: whenever the exchange with the port goes
    through, [verify_pin] returns one of [True], [False], [None], decided by
    the buffer after the read: [True] iff "Hash valid" occurs in it; [False]
    iff "Hash invalid" occurs in it and "Hash valid" does not; [None] iff
    neither occurs. *)
Theorem verify_pin_classification {T} (D : Serial T) (p : string)
  (st : RNS510CodeFinder T) n t1 t2 k t3 (b : PyStr.bytes) t4 :
  write D (command_line p) (serial_port st) = (Ok n, t1) ->
  sleep D t1 = (Ok tt, t2) ->
  in_waiting D t2 = (Ok k, t3) ->
  read D k t3 = (Ok b, t4) ->
  PyStr.valid_utf8 b = true ->
  let buffer := rx st ++ b in
  exists v,
    verify_pin D p st = (Ok v, set_rx buffer (set_serial_port t4 st))
    /\ (v = Some true \/ v = Some false \/ v = None)
    /\ (v = Some true <-> occurs_in "Hash valid" buffer)
    /\ (v = Some false <->
        occurs_in "Hash invalid" buffer /\ ~ occurs_in "Hash valid" buffer)
    /\ (v = None <->
        ~ occurs_in "Hash valid" buffer /\ ~ occurs_in "Hash invalid" buffer).
Proof.
  intros Hwr Hs Hw Hr Hv buffer.
  exists (classify buffer).
  split; [now apply (verify_pin_returns D p st n t1 t2 k t3 b t4)|].
  split; [destruct (classify buffer) as [[|]|]; auto|].
  now apply classify_spec.
Qed.

Lemma verify_pin_classification_witness :
  let D := sim (unit_with_code "0001") None in
  let st := init (sim_set_open true unplugged) in
  exists v,
    fst (verify_pin D "0000" st) = Ok v
    /\ (v = Some false <->
        occurs_in "Hash invalid" (rx (snd (verify_pin D "0000" st)))
        /\ ~ occurs_in "Hash valid" (rx (snd (verify_pin D "0000" st)))).
Proof.
  destruct (verify_pin_classification (sim (unit_with_code "0001") None)
              "0000" (init (sim_set_open true unplugged))
              _ _ _ _ _ _ _ eq_refl eq_refl eq_refl eq_refl eq_refl)
    as (v & Hrun & _ & _ & Hinv & _).
  exists v. rewrite Hrun. split; [reflexivity | exact Hinv].
Defined.

(** C2 as stated fails: after the rejected "0000" has left "Hash invalid" in
    the buffer, the accepted "0001" is read as valid, although the buffer
    contains "Hash invalid". *)
Lemma hash_invalid_in_buffer_yet_valid :
  let D := sim (unit_with_code "0001") None in
  let st := snd (verify_pin D "0000" (init (sim_set_open true unplugged))) in
  let out := verify_pin D "0001" st in
  occurs_in "Hash invalid" (rx (snd out))
  /\ fst out = Ok (Some true)
  /\ fst out <> Ok (Some false).
Proof.
  cbn zeta. split; [|split].
  - apply contains_iff. vm_compute. reflexivity.
  - vm_compute. reflexivity.
  - vm_compute. discriminate.
Qed.

(** C9, as the code has it: [read_response] appends the bytes it read to
    [rx] and returns the whole of [rx], which is unchanged when nothing was
    read; no method and no scan ever shortens [rx]; so once "Hash valid"
    occurs in [rx], a later [verify_pin] that returns at all returns [True].
    It can still raise, when the port fails or the new bytes are not UTF-8,
    and then [rx] is as it was. *)
Theorem buffer_only_grows {T} (D : Serial T) :
  (forall st k t1 b t2,
     in_waiting D (serial_port st) = (Ok k, t1) ->
     read D k t1 = (Ok b, t2) ->
     PyStr.valid_utf8 b = true ->
     read_response D st
     = (Ok (rx st ++ b), set_rx (rx st ++ b) (set_serial_port t2 st)))
  /\ (forall st t1 t2,
        in_waiting D (serial_port st) = (Ok 0%nat, t1) ->
        read D 0 t1 = (Ok "", t2) ->
        fst (read_response D st) = Ok (rx st)
        /\ rx (snd (read_response D st)) = rx st)
  /\ (forall p st, exists s, rx (snd (verify_pin D p st)) = rx st ++ s)
  /\ (forall controller start stop st,
        exists s, rx (snd (find_code D controller start stop st)) = rx st ++ s)
  /\ (forall p st,
        occurs_in "Hash valid" (rx st) ->
        fst (verify_pin D p st) = Ok (Some true)
        \/ exists e, fst (verify_pin D p st) = Raise e
                     /\ rx (snd (verify_pin D p st)) = rx st)
  /\ (forall p st n t1 t2 k t3 b t4,
        occurs_in "Hash valid" (rx st) ->
        write D (command_line p) (serial_port st) = (Ok n, t1) ->
        sleep D t1 = (Ok tt, t2) ->
        in_waiting D t2 = (Ok k, t3) ->
        read D k t3 = (Ok b, t4) ->
        PyStr.valid_utf8 b = true ->
        fst (verify_pin D p st) = Ok (Some true)).
Proof.
  assert (sticky : forall text more,
            occurs_in "Hash valid" text -> classify (text ++ more) = Some true).
  { intros text more Ho. unfold classify.
    now rewrite (contains_append _ _ _ (proj2 (contains_iff _ _) Ho)). }
  split; [exact (read_response_returns D)|].
  split.
  { intros st t1 t2 Hw Hr.
    rewrite (read_response_returns D st 0 t1 "" t2 Hw Hr eq_refl).
    cbn. now rewrite append_nil_r. }
  split.
  { intros p st. destruct (verify_pin D p st) as [r st'] eqn:E.
    apply verify_pin_cases in E. destruct E as (_ & _ & _ & Hrx).
    destruct r as [v|e]; cbn; [tauto|].
    exists ""; now rewrite append_nil_r. }
  split.
  { intros controller start stop st.
    destruct (find_code D controller start stop st) as [r st'] eqn:E.
    apply find_code_conforms in E.
    destruct E as (evs & en & closing & _ & _ & _ & Hx & _). exact Hx. }
  split.
  { intros p st Ho. destruct (verify_pin D p st) as [r st'] eqn:E.
    apply verify_pin_cases in E. destruct E as (_ & _ & _ & Hrx).
    destruct r as [v|e]; cbn.
    - left. destruct Hrx as [[s Hs] ->]. rewrite Hs. now rewrite sticky.
    - right; eauto. }
  intros p st n t1 t2 k t3 b t4 Ho Hwr Hs Hw Hr Hv.
  rewrite (verify_pin_returns D p st n t1 t2 k t3 b t4 Hwr Hs Hw Hr Hv).
  cbn. now rewrite sticky.
Qed.

Lemma buffer_only_grows_witness :
  let D := sim (unit_with_code "0000") None in
  let st := snd (verify_pin D "0000" (init (sim_set_open true unplugged))) in
  fst (verify_pin D "0001" st) = Ok (Some true).
Proof.
  cbn zeta.
  refine (proj2 (proj2 (proj2 (proj2 (proj2
            (buffer_only_grows (sim (unit_with_code "0000") None))))))
            "0001"
            (snd (verify_pin (sim (unit_with_code "0000") None) "0000"
                    (init (sim_set_open true unplugged))))
            _ _ _ _ _ _ _ _ eq_refl eq_refl eq_refl eq_refl eq_refl).
  apply contains_iff. vm_compute. reflexivity.
Defined.

(** C9 as stated fails: with "Hash valid" already in the buffer, a unit that
    answers with a byte that is not UTF-8 makes [verify_pin] raise instead of
    returning [True]. *)
Lemma undecodable_answer_is_not_valid :
  let D := sim (unit_saying garbage) None in
  let st := set_rx "Hash valid" (init (sim_set_open true unplugged)) in
  let out := verify_pin D "0001" st in
  occurs_in "Hash valid" (rx st)
  /\ fst out = Raise (UnicodeDecodeError garbage)
  /\ fst out <> Ok (Some true).
Proof.
  cbn zeta. split; [|split].
  - apply contains_iff. vm_compute. reflexivity.
  - vm_compute. reflexivity.
  - vm_compute. discriminate.
Qed.

(** C3: on a port whose answers make [verify_pin] return [True] for
    candidate "0042" and [False] for every other candidate of the range,
    [find_code 0 100] returns with [pin] = "0042"; it probed "0000" to
    "0042" in ascending order, each once, and nothing after "0042".  The
    driver is assumed to close an open port without raising, the port to
    open, and nobody to set the flag before candidate 42 is tried. *)
Theorem scan_finds_0042 {T} (D : Serial T) (R : Reliable D)
  (controller : Z -> bool) (Inv : T -> string -> Prop)
  (st st0 : RNS510CodeFinder T) :
  (forall j, 0 <= j <= 42 -> controller j = false) ->
  stop_count st = false ->
  open_port D st = (Ok tt, st0) ->
  Inv (serial_port st0) (rx st0) ->
  (forall j s, 0 <= j <= 100 -> Inv (serial_port s) (rx s) ->
     exists s',
       verify_pin D (candidate j) s
       = (Ok (if j =? 42 then Some true else Some false), s')
       /\ (j <> 42 -> Inv (serial_port s') (rx s'))) ->
  let out := find_code D controller 0 100 st in
  fst out = Ok tt
  /\ pin (snd out) = "0042"
  /\ is_open D (serial_port (snd out)) = false
  /\ exists opened closing,
       logging (snd out)
       = (logging st ++ opened ++ rounds (Some false) 0 42
            ++ [Trying "0042"; Found "0042"] ++ closing)%list
       /\ (opened = [] \/ exists p, opened = [Opened p])
       /\ (closing = [] \/ exists p, closing = [Closed p])
       /\ tried (opened ++ rounds (Some false) 0 42
                   ++ [Trying "0042"; Found "0042"] ++ closing)
          = map candidate (zseq 0 43).
Proof.
  intros Hq Hs Eo Hi Hver. cbn zeta.
  destruct (scan_after_open D controller 0 100 st st0 Eo)
    as (Escan & Hs0 & Hp0 & _ & opened & Hl0 & Hopened).
  change (Z.to_nat (100 + 1 - 0)) with (42 + S 58)%nat in Escan.
  destruct (loop_skips D controller Inv (Some false) 42 (S 58) 0 st0)
    as (st1 & Eskip & Hi1 & Hs1 & Hp1 & Hl1);
    [discriminate | intros j Hj; apply Hq; lia | congruence | exact Hi | |].
  { intros j s Hj Hinv.
    destruct (Hver j s ltac:(lia) Hinv) as (s' & Ev & Hinv').
    destruct (Z.eqb_spec j 42) as [->|Hne]; [lia|]. eauto. }
  change (0 + Z.of_nat 42) with 42 in Eskip.
  destruct (Hver 42 (set_logging (logging st1 ++ [Trying (candidate 42)]) st1)
              ltac:(lia) Hi1) as (s2 & Ev & _).
  cbn [Z.eqb Pos.eqb] in Ev.
  pose proof (loop_finds D controller 58 42 st1 s2
                (Hq 42 ltac:(lia)) Hs1 Ev) as Efound.
  apply verify_pin_cases in Ev.
  cbn [stop_count pin logging rx set_logging] in Ev.
  destruct Ev as (_ & _ & Hl2 & _).
  rewrite Eskip, Efound in Escan.
  destruct (find_code_after_scan D controller R 0 100 st _ Escan)
    as (st3 & closing & Efc & Hc3 & _ & Hp3 & _ & Hl3 & Hclosing).
  rewrite Efc. cbn [fst snd].
  cbn [stop_count pin logging rx set_logging set_pin] in Hp3, Hl3.
  split; [reflexivity|]. split; [exact Hp3|]. split; [exact Hc3|].
  exists opened, closing.
  split; [|split; [exact Hopened|split; [exact Hclosing|]]].
  - rewrite Hl3, Hl2, Hl1, Hl0.
    change (candidate 42) with "0042". rewrite <- !app_assoc. reflexivity.
  - rewrite !tried_app, tried_rounds.
    replace (tried opened) with (@nil string)
      by (destruct Hopened as [-> | [p ->]]; reflexivity).
    replace (tried closing) with (@nil string)
      by (destruct Hclosing as [-> | [p ->]]; reflexivity).
    reflexivity.
Qed.

Lemma scan_finds_0042_witness :
  let D := sim (unit_with_code "0042") None in
  let out := find_code D nobody 0 100 (init unplugged) in
  fst out = Ok tt /\ pin (snd out) = "0042"
  /\ is_open D (serial_port (snd out)) = false.
Proof.
  destruct (scan_finds_0042 (sim (unit_with_code "0042") None)
              (sim_reliable _ _) nobody (sim_ready ["Hash valid"])
              (init unplugged) _
              (fun _ _ => eq_refl) eq_refl eq_refl
              (conj eq_refl (conj eq_refl eq_refl))
              unit_0042_verdicts)
    as (H1 & H2 & H3 & _).
  split; [exact H1 | split; [exact H2 | exact H3]].
Defined.

(** C4: a candidate that [verify_pin] answers with [None] is not sent
    again: the loop goes on with the next one.  On a port whose answers are
    all inconclusive, [find_code 0 5] probes "0000" to "0005", each once and
    in this order, and runs out of candidates: [pin] is as before and the
    flag is unset.  The driver is assumed to close an open port without
    raising, the port to open, and nobody to set the flag. *)
Theorem inconclusive_answers_advance {T} (D : Serial T) (R : Reliable D)
  (controller : Z -> bool) (Inv : T -> string -> Prop)
  (st st0 : RNS510CodeFinder T) :
  (forall n i s s2,
     controller i = false -> stop_count s = false ->
     verify_pin D (candidate i)
       (set_logging (logging s ++ [Trying (candidate i)]) s) = (Ok None, s2) ->
     for_range (S n) i (try_candidate D controller) s
     = for_range n (i + 1) (try_candidate D controller)
         (set_logging (logging s2 ++ [NoResponse (candidate i)]) s2))
  /\ ((forall j, 0 <= j <= 5 -> controller j = false) ->
      stop_count st = false ->
      open_port D st = (Ok tt, st0) ->
      Inv (serial_port st0) (rx st0) ->
      (forall j s, 0 <= j <= 5 -> Inv (serial_port s) (rx s) ->
         exists s', verify_pin D (candidate j) s = (Ok None, s')
                    /\ Inv (serial_port s') (rx s')) ->
      let out := find_code D controller 0 5 st in
      fst out = Ok tt
      /\ pin (snd out) = pin st /\ stop_count (snd out) = false
      /\ is_open D (serial_port (snd out)) = false
      /\ exists opened closing,
           logging (snd out)
           = (logging st ++ opened ++ rounds None 0 6 ++ closing)%list
           /\ (opened = [] \/ exists p, opened = [Opened p])
           /\ (closing = [] \/ exists p, closing = [Closed p])
           /\ tried (opened ++ rounds None 0 6 ++ closing)
              = ["0000"; "0001"; "0002"; "0003"; "0004"; "0005"]
           /\ try_run controller false 0 5 (opened ++ rounds None 0 6)
                Exhausted).
Proof.
  split.
  { intros n i s s2 Hc Hs Ev. rewrite for_range_step.
    pose proof (try_candidate_cases D controller i s) as Hcases.
    rewrite Hc in Hcases. cbn zeta in Hcases.
    destruct Hcases as [[Hs' _] | [_ ->]]; [congruence|].
    now rewrite Ev. }
  intros Hq Hs Eo Hi Hver. cbn zeta.
  destruct (scan_after_open D controller 0 5 st st0 Eo)
    as (Escan & Hs0 & Hp0 & _ & opened & Hl0 & Hopened).
  change (Z.to_nat (5 + 1 - 0)) with (6 + 0)%nat in Escan.
  destruct (loop_skips D controller Inv None 6 0 0 st0)
    as (st1 & Eskip & Hi1 & Hs1 & Hp1 & Hl1);
    [discriminate | intros j Hj; apply Hq; lia | congruence | exact Hi
    | intros j s Hj; apply Hver; lia |].
  rewrite Eskip in Escan. cbn [for_range] in Escan. unfold ret in Escan.
  destruct (find_code_after_scan D controller R 0 5 st _ Escan)
    as (st3 & closing & Efc & Hc3 & Hs3 & Hp3 & _ & Hl3 & Hclosing).
  rewrite Efc. cbn [fst snd].
  split; [reflexivity|]. split; [congruence|]. split; [congruence|].
  split; [exact Hc3|].
  exists opened, closing.
  split; [|split; [exact Hopened|split; [exact Hclosing|split]]].
  - rewrite Hl3, Hl1, Hl0, <- !app_assoc. reflexivity.
  - rewrite !tried_app, tried_rounds.
    replace (tried opened) with (@nil string)
      by (destruct Hopened as [-> | [p ->]]; reflexivity).
    replace (tried closing) with (@nil string)
      by (destruct Hclosing as [-> | [p ->]]; reflexivity).
    reflexivity.
  - apply try_scanned; [exact Hopened|].
    change (Z.to_nat (5 + 1 - 0)) with 6%nat.
    apply rounds_run; [discriminate | intros j Hj; apply Hq; lia].
Qed.

Lemma inconclusive_answers_advance_witness :
  let D := sim (unit_saying "busy") None in
  let out := find_code D nobody 0 5 (init unplugged) in
  fst out = Ok tt /\ pin (snd out) = "0000"
  /\ is_open D (serial_port (snd out)) = false.
Proof.
  destruct (proj2 (inconclusive_answers_advance (sim (unit_saying "busy") None)
              (sim_reliable _ _) nobody
              (sim_ready ["Hash valid"; "Hash invalid"])
              (init unplugged) _)
              (fun _ _ => eq_refl) eq_refl eq_refl
              (conj eq_refl (conj eq_refl eq_refl))
              (fun j s _ =>
                 unit_saying_verdicts "busy" (candidate j) s
                   eq_refl eq_refl eq_refl eq_refl eq_refl))
    as (H1 & H2 & _ & H4 & _).
  split; [exact H1 | split; [exact H2 | exact H4]].
Defined.

(** * Further properties *)

(** ** The text of a candidate *)

Lemma decimal_value_acc (d : Decimal.uint) : forall acc : positive,
  decimal_value (Z.pos acc) (NilEmpty.string_of_uint d)
  = Z.pos (Pos.of_uint_acc d acc).
Proof.
  induction d as [|d IH|d IH|d IH|d IH|d IH|d IH|d IH|d IH|d IH|d IH];
    intros acc; cbn [NilEmpty.string_of_uint decimal_value Pos.of_uint_acc];
    [reflexivity|..]; rewrite <- IH; f_equal;
    match goal with
    | |- context [Z.of_N (N_of_ascii ?c)] =>
        let v := eval vm_compute in (Z.of_N (N_of_ascii c)) in
        change (Z.of_N (N_of_ascii c)) with v
    end; lia.
Qed.

Lemma decimal_value_uint (d : Decimal.uint) :
  decimal_value 0 (NilEmpty.string_of_uint d) = Z.of_N (Pos.of_uint d).
Proof.
  induction d as [|d IH|d IH|d IH|d IH|d IH|d IH|d IH|d IH|d IH|d IH];
    cbn [NilEmpty.string_of_uint decimal_value Pos.of_uint];
    [reflexivity | exact IH | ..]; apply decimal_value_acc.
Qed.

Lemma decimal_value_zeros (n : nat) (s : string) :
  decimal_value 0 (PyStr.zeros n ++ s) = decimal_value 0 s.
Proof. induction n as [|n IH]; [reflexivity | exact IH]. Qed.

Lemma digits_of_positive (p : positive) :
  NilZero.string_of_uint (Pos.to_uint p)
  = NilEmpty.string_of_uint (Pos.to_uint p)
  /\ decimal_value 0 (NilEmpty.string_of_uint (Pos.to_uint p)) = Z.pos p
  /\ exists c r, NilEmpty.string_of_uint (Pos.to_uint p) = String c r
       /\ Ascii.eqb c "-" = false /\ Ascii.eqb c "+" = false.
Proof.
  split; [|split].
  - pose proof (DecimalPos.Unsigned.to_uint_nonnil p) as Hn.
    now destruct (Pos.to_uint p).
  - rewrite decimal_value_uint, DecimalPos.Unsigned.of_to. reflexivity.
  - pose proof (DecimalPos.Unsigned.to_uint_nonnil p) as Hn.
    destruct (Pos.to_uint p); [congruence|..]; cbn; eauto.
Qed.

Lemma zfill_unsigned (w : nat) (c : ascii) (r : string) :
  Ascii.eqb c "-" = false -> Ascii.eqb c "+" = false ->
  signed_value (PyStr.zfill w (String c r)) = decimal_value 0 (String c r).
Proof.
  intros Hm Hp. unfold PyStr.zfill.
  destruct (w <=? String.length (String c r))%nat eqn:E.
  - unfold signed_value. now rewrite Hm.
  - rewrite Hp, Hm. cbn [orb].
    apply Nat.leb_gt in E.
    destruct (w - String.length (String c r))%nat as [|m] eqn:Em; [lia|].
    change (PyStr.zeros (S m) ++ String c r)
      with (String "0" (PyStr.zeros m ++ String c r)).
    unfold signed_value. cbn [Ascii.eqb Bool.eqb].
    exact (decimal_value_zeros (S m) (String c r)).
Qed.

Lemma zfill_negative (w : nat) (r : string) :
  signed_value (PyStr.zfill w (String "-" r)) = - decimal_value 0 r.
Proof.
  unfold PyStr.zfill.
  destruct (w <=? String.length (String "-" r))%nat; [reflexivity|].
  cbn [Ascii.eqb Bool.eqb orb andb]. unfold signed_value.
  cbn [Ascii.eqb Bool.eqb]. now rewrite decimal_value_zeros.
Qed.

Lemma candidate_value (i : Z) : signed_value (candidate i) = i.
Proof.
  unfold candidate, PyStr.str. destruct i as [|p|p].
  - reflexivity.
  - cbn [Z.to_int NilZero.string_of_int].
    destruct (digits_of_positive p) as (-> & Hv & c & r & Hs & Hm & Hp).
    rewrite Hs in *. now rewrite zfill_unsigned.
  - cbn [Z.to_int NilZero.string_of_int].
    destruct (digits_of_positive p) as (-> & Hv & _).
    rewrite zfill_negative, Hv. reflexivity.
Qed.

Lemma candidate_injective (i j : Z) : candidate i = candidate j -> i = j.
Proof.
  intros H. rewrite <- (candidate_value i), <- (candidate_value j).
  now rewrite H.
Qed.



(** ** What every scan does *)

Lemma zseq_In (n : nat) : forall i x,
  In x (zseq i n) -> i <= x < i + Z.of_nat n.
Proof.
  induction n as [|n IH]; intros i x; cbn [zseq In]; [tauto|].
  intros [<- | Hx]; [lia|]. apply IH in Hx. lia.
Qed.

Lemma zseq_NoDup (n : nat) : forall i, NoDup (zseq i n).
Proof.
  induction n as [|n IH]; intros i; cbn [zseq]; constructor; [|apply IH].
  intros Hin. apply zseq_In in Hin. lia.
Qed.

Lemma tried_closing (closing : list event) :
  closing = [] \/ (exists p, closing = [Closed p]) -> tried closing = [].
Proof. intros [-> | [p ->]]; reflexivity. Qed.

(** The records of the [try] block are at INFO or WARNING. *)
Lemma scan_run_levels ctl flag i n evs en :
  scan_run ctl flag i n evs en ->
  Forall (fun ev => event_level ev = INFO \/ event_level ev = WARNING) evs.
Proof.
  induction 1;
    repeat (apply Forall_cons; [cbn; auto|]); solve [constructor | assumption].
Qed.

Lemma try_run_levels ctl flag start stop evs en :
  try_run ctl flag start stop evs en ->
  Forall (fun ev => event_level ev = INFO \/ event_level ev = WARNING) evs.
Proof.
  intros [e | opened evs' en' Ho Hrun]; [constructor|].
  apply Forall_app; split; [|eapply scan_run_levels; eassumption].
  destruct Ho as [-> | [p ->]]; [constructor|].
  apply Forall_cons; [cbn; auto | constructor].
Qed.

(** X4: whatever the port answers and whenever the flag is set, the
    candidates a scan probes are the first [k] integers of
    [range(start, stop + 1)], in ascending order, and no candidate text is
    sent twice. *)
Theorem probes_ascending_distinct {T} (D : Serial T) (controller : Z -> bool)
  (start stop : Z) (st : RNS510CodeFinder T) :
  let st' := snd (find_code D controller start stop st) in
  exists new k,
    logging st' = (logging st ++ new)%list
    /\ (k <= Z.to_nat (stop + 1 - start))%nat
    /\ tried new = map candidate (zseq start k)
    /\ NoDup (tried new).
Proof.
  cbn zeta.
  destruct (find_code D controller start stop st) as [r st'] eqn:E.
  apply find_code_conforms in E.
  destruct E as (evs & en & closing & Ht & Hl & Hcl & _).
  destruct (try_run_tried _ _ _ _ _ _ Ht) as (k & Hk & Htr & _).
  exists (evs ++ report en ++ closing)%list, k. cbn [snd].
  assert (Hnew : tried (evs ++ report en ++ closing) = map candidate (zseq start k))
    by (rewrite !tried_app, tried_report, (tried_closing _ Hcl), app_nil_r;
        exact Htr).
  split; [exact Hl|]. split; [exact Hk|]. split; [exact Hnew|].
  rewrite Hnew. apply NoDup_map_NoDup_ForallPairs; [|apply zseq_NoDup].
  intros a b _ _; apply candidate_injective.
Qed.

(** X7: no record below INFO reaches the log: neither the commands sent nor
    the text received is ever logged by a scan. *)
Theorem scan_logs_no_debug_record {T} (D : Serial T) (controller : Z -> bool)
  (start stop : Z) (st : RNS510CodeFinder T) :
  let st' := snd (find_code D controller start stop st) in
  exists new,
    logging st' = (logging st ++ new)%list
    /\ forall ev, In ev new ->
         event_level ev <> DEBUG
         /\ (forall c, ev <> Sent c) /\ (forall r, ev <> Received r).
Proof.
  cbn zeta.
  destruct (find_code D controller start stop st) as [r st'] eqn:E.
  apply find_code_conforms in E.
  destruct E as (evs & en & closing & Ht & Hl & Hcl & _).
  exists (evs ++ report en ++ closing)%list. cbn [snd].
  split; [exact Hl|].
  assert (Hlev : forall ev, In ev (evs ++ report en ++ closing) ->
                   event_level ev <> DEBUG).
  { intros ev Hin. apply in_app_or in Hin as [Hin | Hin].
    - pose proof (try_run_levels _ _ _ _ _ _ Ht) as Hf.
      rewrite Forall_forall in Hf. destruct (Hf ev Hin) as [-> | ->];
        discriminate.
    - apply in_app_or in Hin as [Hin | Hin].
      + destruct en as [|p| |e]; try contradiction. cbn in Hin.
        destruct (is_Exception e); [|contradiction].
        destruct Hin as [<- | []]. now destruct e.
      + destruct Hcl as [-> | [p ->]]; [contradiction|].
        destruct Hin as [<- | []]. discriminate. }
  intros ev Hin. pose proof (Hlev ev Hin) as Hd.
  repeat split; [exact Hd | intros c -> | intros r0 ->]; now apply Hd.
Qed.

(** X6: an exception that is not an [Exception] (a keyboard interrupt)
    raised in the [try] block is not caught: [find_code] lets it through,
    logs no error record for it, and still closes the port.  The driver is
    assumed to close an open port without raising. *)
Theorem interrupt_propagates {T} (D : Serial T) (R : Reliable D)
  (controller : Z -> bool) (start stop : Z) (st : RNS510CodeFinder T)
  (e : exn) :
  fst (scan D controller start stop st) = Raise e ->
  is_Exception e = false ->
  let out := find_code D controller start stop st in
  fst out = Raise e
  /\ is_open D (serial_port (snd out)) = false
  /\ exists new,
       logging (snd out) = (logging st ++ new)%list
       /\ forall ev, In ev new -> event_level ev <> ERROR.
Proof.
  intros Hscan He. cbn zeta.
  destruct (find_code D controller start stop st) as [r st'] eqn:E.
  apply find_code_conforms in E.
  destruct E as (evs & en & closing & Ht & Hl & Hcl & _ & Hen & Hr).
  destruct (Hr R) as [-> Hc]. cbn [fst snd].
  rewrite Hscan in Hen.
  destruct en as [|p| |e']; cbn in Hen; try (destruct Hen; discriminate).
  destruct Hen as [[= <-] _].
  cbn [result report] in *. rewrite He in *.
  split; [reflexivity|]. split; [exact Hc|].
  exists (evs ++ closing)%list. split; [exact Hl|].
  intros ev Hin. apply in_app_or in Hin as [Hin | Hin].
  - pose proof (try_run_levels _ _ _ _ _ _ Ht) as Hf.
    rewrite Forall_forall in Hf. destruct (Hf ev Hin) as [-> | ->];
      discriminate.
  - destruct Hcl as [-> | [p ->]]; [contradiction|].
    destruct Hin as [<- | []]. discriminate.
Qed.

Lemma interrupt_propagates_witness :
  let e := BaseException "KeyboardInterrupt" in
  let D := sim (unit_saying "busy") (Some e) in
  let out := find_code D nobody 0 10 (init unplugged) in
  fst out = Raise e /\ is_open D (serial_port (snd out)) = false.
Proof.
  destruct (interrupt_propagates
              (sim (unit_saying "busy")
                 (Some (BaseException "KeyboardInterrupt")))
              (sim_reliable _ _) nobody 0 10 (init unplugged)
              (BaseException "KeyboardInterrupt") eq_refl eq_refl)
    as (H1 & H2 & _).
  split; [exact H1 | exact H2].
Defined.

Lemma close_port_keeps {T} (D : Serial T) (st : RNS510CodeFinder T) :
  let st' := snd (close_port D st) in
  stop_count st' = stop_count st /\ pin st' = pin st /\ rx st' = rx st
  /\ exists closing,
       logging st' = (logging st ++ closing)%list
       /\ (closing = [] \/ exists p, closing = [Closed p]).
Proof.
  cbn zeta.
  destruct (close_port_cases D st) as [[_ ->] | [_ ->]].
  - cbn. repeat split. exists []. rewrite app_nil_r. auto.
  - destruct (close D (serial_port st)) as [[[]|e] t1]; cbn; repeat split.
    + eauto.
    + exists []. rewrite app_nil_r. auto.
Qed.

Lemma find_code_state {T} (D : Serial T) ctl start stop
  (st : RNS510CodeFinder T) :
  snd (find_code D ctl start stop st)
  = snd (close_port D (snd (try_except (scan D ctl start stop) handlers st))).
Proof.
  unfold find_code, try_finally.
  destruct (try_except _ _ st) as [r st1]; cbn [snd].
  now destruct (close_port D st1) as [[[]|e] st2].
Qed.



(** X8: the buffer outlives a scan.  When "Hash valid" is already in [rx]
    (left by an earlier scan on the same object), the next scan takes its
    first candidate for the code, whatever the unit answers to it, provided
    the exchange for that candidate completes. *)
Theorem stale_answer_accepts_first_candidate {T} (D : Serial T)
  (controller : Z -> bool) (start stop : Z) (st st0 : RNS510CodeFinder T) :
  occurs_in "Hash valid" (rx st) ->
  start <= stop ->
  stop_count st = false ->
  controller start = false ->
  open_port D st = (Ok tt, st0) ->
  (forall e,
     fst (verify_pin D (candidate start)
            (set_logging (logging st0 ++ [Trying (candidate start)]) st0))
     <> Raise e) ->
  let st' := snd (find_code D controller start stop st) in
  pin st' = candidate start
  /\ exists new,
       logging st' = (logging st ++ new)%list
       /\ tried new = [candidate start]
       /\ In (Found (candidate start)) new.
Proof.
  intros Hold Hrange Hs Hc Eo Hok. cbn zeta.
  destruct (scan_after_open D controller start stop st st0 Eo)
    as (Escan & Hs0 & _ & Hx0 & opened & Hl0 & Hopened).
  destruct (Z.to_nat (stop + 1 - start)) as [|m] eqn:En; [lia|].
  destruct (verify_pin D (candidate start)
              (set_logging (logging st0 ++ [Trying (candidate start)]) st0))
    as [rv s2] eqn:Ev.
  pose proof (verify_pin_cases D _ _ _ _ Ev) as Hcases.
  cbn [stop_count pin logging rx set_logging] in Hcases.
  destruct Hcases as (_ & _ & Hl2 & Hrx).
  destruct rv as [v|e]; [|exfalso; now apply (Hok e)].
  destruct Hrx as [[s Hrx] Hv].
  assert (Hvalid : v = Some true).
  { rewrite Hv, Hrx, Hx0. unfold classify.
    now rewrite (contains_append _ _ _ (proj2 (contains_iff _ _) Hold)). }
  clear Hv. subst v.
  rewrite (loop_finds D controller m start st0 s2 Hc
             ltac:(congruence) Ev) in Escan.
  rewrite find_code_state. unfold try_except. rewrite Escan. cbn [snd].
  match goal with
  | |- context [close_port D ?s] =>
      destruct (close_port_keeps D s) as (_ & Hp' & _ & closing & Hl' & Hcl)
  end.
  cbn [stop_count pin logging rx set_logging set_pin] in Hp', Hl'.
  split; [exact Hp'|].
  exists (opened ++ [Trying (candidate start); Found (candidate start)]
            ++ closing)%list.
  split; [rewrite Hl', Hl2, Hl0, <- !app_assoc; reflexivity|].
  split.
  - rewrite !tried_app, (tried_closing _ Hcl).
    destruct Hopened as [-> | [p ->]]; reflexivity.
  - apply in_or_app; right. cbn. auto.
Qed.

Lemma stale_answer_accepts_first_candidate_witness :
  let D := sim (unit_with_code "0000") None in
  let st := set_rx "Hash valid" (init unplugged) in
  pin (snd (find_code D nobody 5 9 st)) = candidate 5.
Proof.
  refine (proj1 (stale_answer_accepts_first_candidate
                   (sim (unit_with_code "0000") None) nobody 5 9
                   (set_rx "Hash valid" (init unplugged))
                   (set_logging [Opened "COM3"]
                      (set_rx "Hash valid"
                         (init (sim_set_open true unplugged))))
                   _ _ eq_refl eq_refl _ _)).
  - apply contains_iff. vm_compute. reflexivity.
  - lia.
  - vm_compute. reflexivity.
  - intros e. vm_compute. discriminate.
Defined.

(** ** The methods one by one *)

(** X1: [open_port] opens only a port that is not open.  When it returns,
    the port is open (for a driver whose [open] leaves it so), a second call
    does nothing, at most one "Opened" record was logged and [pin], [rx] and
    the flag are untouched; when it raises, it is [open] that raised and
    nothing was logged. *)
Theorem open_port_idempotent {T} (D : Serial T) (st : RNS510CodeFinder T) :
  ((forall t, is_open D t = false -> fst (open D t) = Ok tt ->
              is_open D (snd (open D t)) = true) ->
   fst (open_port D st) = Ok tt ->
   let st1 := snd (open_port D st) in
   is_open D (serial_port st1) = true
   /\ open_port D st1 = (Ok tt, st1)
   /\ stop_count st1 = stop_count st /\ pin st1 = pin st /\ rx st1 = rx st
   /\ (logging st1 = logging st
       \/ logging st1
          = (logging st ++ [Opened (port D (serial_port st1))])%list))
  /\ (forall e, fst (open_port D st) = Raise e ->
        is_open D (serial_port st) = false
        /\ fst (open D (serial_port st)) = Raise e
        /\ logging (snd (open_port D st)) = logging st).
Proof.
  split.
  - intros Hopen Hok. cbn zeta.
    destruct (open_port_cases D st) as [[Ho E] | [Hc E]]; rewrite E in *.
    + cbn [snd]. rewrite E. auto 10.
    + specialize (Hopen (serial_port st) Hc).
      destruct (open D (serial_port st)) as [[[]|e] t1];
        [|discriminate Hok].
      cbn [fst snd] in *. specialize (Hopen eq_refl).
      split; [exact Hopen|].
      split; [|cbn; auto 10].
      destruct (open_port_cases D
                  (set_logging (logging st ++ [Opened (port D t1)])
                     (set_serial_port t1 st))) as [[_ E1] | [Hc1 _]];
        [exact E1 | cbn in Hc1; congruence].
  - intros e Hraise.
    destruct (open_port_cases D st) as [[Ho E] | [Hc E]]; rewrite E in *;
      [discriminate Hraise|].
    destruct (open D (serial_port st)) as [[[]|e'] t1];
      [discriminate Hraise|].
    cbn in *. auto.
Qed.

Lemma open_port_idempotent_witness :
  let D := sim (unit_saying "busy") None in
  let st1 := snd (open_port D (init unplugged)) in
  is_open D (serial_port st1) = true /\ open_port D st1 = (Ok tt, st1).
Proof.
  destruct (proj1 (open_port_idempotent (sim (unit_saying "busy") None)
                     (init unplugged))
              (fun t _ _ => eq_refl) eq_refl) as (H1 & H2 & _).
  split; [exact H1 | exact H2].
Defined.

(** X2: [verify_pin] touches nothing but the port and the buffer: [pin],
    the flag and the log (at the configured level) are as before, [rx] can
    only have grown, and is unchanged when the call raises.  A command that
    cannot be written ends the call at once: nothing is read. *)
Theorem verify_pin_footprint {T} (D : Serial T) (p : string)
  (st : RNS510CodeFinder T) :
  let out := verify_pin D p st in
  stop_count (snd out) = stop_count st
  /\ pin (snd out) = pin st
  /\ logging (snd out) = logging st
  /\ (exists s, rx (snd out) = rx st ++ s)
  /\ (forall e, fst out = Raise e -> rx (snd out) = rx st)
  /\ (forall e t1,
        write D (command_line p) (serial_port st) = (Raise e, t1) ->
        out = (Raise e, set_serial_port t1 st)).
Proof.
  cbn zeta.
  destruct (verify_pin D p st) as [r st'] eqn:E.
  pose proof (verify_pin_cases D _ _ _ _ E) as (Hs & Hp & Hl & Hrx).
  cbn [fst snd].
  split; [exact Hs|]. split; [exact Hp|]. split; [exact Hl|].
  split; [|split].
  - destruct r as [v|e]; [tauto|]. exists ""; now rewrite append_nil_r.
  - intros e ->. exact Hrx.
  - intros e t1 Hw. rewrite <- E.
    cbv [verify_pin send_command bind call].
    unfold command_line in Hw. now rewrite Hw.
Qed.

(** ** The script *)



(** ** Decoding by chunks *)

Lemma valid_utf8_step (b0 : ascii) (r0 : string) :
  PyStr.valid_utf8 (String b0 r0)
  = if PyStr.byte_in 0 127 b0 then PyStr.valid_utf8 r0
    else
      match r0 with
      | EmptyString => false
      | String b1 r1 =>
          if PyStr.byte_in 194 223 b0 then PyStr.cont b1 && PyStr.valid_utf8 r1
          else
            match r1 with
            | EmptyString => false
            | String b2 r2 =>
                if PyStr.byte_in 224 224 b0
                then PyStr.byte_in 160 191 b1 && PyStr.cont b2
                     && PyStr.valid_utf8 r2
                else if PyStr.byte_in 225 236 b0 || PyStr.byte_in 238 239 b0
                then PyStr.cont b1 && PyStr.cont b2 && PyStr.valid_utf8 r2
                else if PyStr.byte_in 237 237 b0
                then PyStr.byte_in 128 159 b1 && PyStr.cont b2
                     && PyStr.valid_utf8 r2
                else
                  match r2 with
                  | EmptyString => false
                  | String b3 r3 =>
                      if PyStr.byte_in 240 240 b0
                      then PyStr.byte_in 144 191 b1 && PyStr.cont b2
                           && PyStr.cont b3 && PyStr.valid_utf8 r3
                      else if PyStr.byte_in 241 243 b0
                      then PyStr.cont b1 && PyStr.cont b2 && PyStr.cont b3
                           && PyStr.valid_utf8 r3
                      else if PyStr.byte_in 244 244 b0
                      then PyStr.byte_in 128 143 b1 && PyStr.cont b2
                           && PyStr.cont b3 && PyStr.valid_utf8 r3
                      else false
                  end
            end
      end.
Proof. reflexivity. Qed.

(** Well-formed text followed by more bytes is well formed exactly when the
    added bytes are. *)
Lemma valid_utf8_app (n : nat) : forall a b,
  (String.length a <= n)%nat ->
  PyStr.valid_utf8 a = true ->
  PyStr.valid_utf8 (a ++ b) = PyStr.valid_utf8 b.
Proof.
  induction n as [|n IH]; intros a b Hlen Hv.
  - destruct a; [reflexivity | cbn in Hlen; lia].
  - destruct a as [|b0 r0]; [reflexivity|].
    change (String b0 r0 ++ b) with (String b0 (r0 ++ b)).
    rewrite valid_utf8_step in Hv |- *. cbn [String.length] in Hlen.
    destruct (PyStr.byte_in 0 127 b0); [apply IH; [lia | exact Hv]|].
    destruct r0 as [|b1 r1]; [discriminate Hv|].
    change (String b1 r1 ++ b) with (String b1 (r1 ++ b)).
    cbn [String.length] in Hlen.
    destruct (PyStr.byte_in 194 223 b0).
    { apply andb_true_iff in Hv as [-> Hv]. apply IH; [lia | exact Hv]. }
    destruct r1 as [|b2 r2]; [discriminate Hv|].
    change (String b2 r2 ++ b) with (String b2 (r2 ++ b)).
    cbn [String.length] in Hlen.
    destruct (PyStr.byte_in 224 224 b0).
    { apply andb_true_iff in Hv as [-> Hv]. apply IH; [lia | exact Hv]. }
    destruct (PyStr.byte_in 225 236 b0 || PyStr.byte_in 238 239 b0).
    { apply andb_true_iff in Hv as [-> Hv]. apply IH; [lia | exact Hv]. }
    destruct (PyStr.byte_in 237 237 b0).
    { apply andb_true_iff in Hv as [-> Hv]. apply IH; [lia | exact Hv]. }
    destruct r2 as [|b3 r3]; [discriminate Hv|].
    change (String b3 r3 ++ b) with (String b3 (r3 ++ b)).
    cbn [String.length] in Hlen.
    destruct (PyStr.byte_in 240 240 b0).
    { apply andb_true_iff in Hv as [-> Hv]. apply IH; [lia | exact Hv]. }
    destruct (PyStr.byte_in 241 243 b0).
    { apply andb_true_iff in Hv as [-> Hv]. apply IH; [lia | exact Hv]. }
    destruct (PyStr.byte_in 244 244 b0); [|discriminate Hv].
    apply andb_true_iff in Hv as [-> Hv]. apply IH; [lia | exact Hv].
Qed.

Lemma lead_byte_alone (c : ascii) :
  PyStr.byte_in 194 244 c = true -> PyStr.valid_utf8 (String c "") = false.
Proof.
  intros Hc. rewrite valid_utf8_step.
  replace (PyStr.byte_in 0 127 c) with false; [reflexivity|].
  unfold PyStr.byte_in in *. apply andb_true_iff in Hc as [Hl _].
  apply N.leb_le in Hl. symmetry. apply andb_false_iff; right.
  apply N.leb_gt. lia.
Qed.

Lemma ascii_is_utf8 (b : PyStr.bytes) :
  is_ascii b = true -> PyStr.valid_utf8 b = true.
Proof.
  induction b as [|c b IH]; [reflexivity|].
  cbn [is_ascii]. intros H. apply andb_true_iff in H as [Hc Hb].
  rewrite valid_utf8_step, Hc. now apply IH.
Qed.

(** X15: an answer made of ASCII bytes always decodes: if the port hands
    the bytes over, [read_response] appends them to [rx] and returns the
    whole buffer; it cannot raise on them. *)
Theorem ascii_answer_is_read {T} (D : Serial T) (st : RNS510CodeFinder T)
  k t1 (b : PyStr.bytes) t2 :
  is_ascii b = true ->
  in_waiting D (serial_port st) = (Ok k, t1) ->
  read D k t1 = (Ok b, t2) ->
  read_response D st
  = (Ok (rx st ++ b), set_rx (rx st ++ b) (set_serial_port t2 st)).
Proof.
  intros Ha Hw Hr.
  apply (read_response_returns D st k t1 b t2 Hw Hr).
  now apply ascii_is_utf8.
Qed.

Lemma ascii_answer_is_read_witness :
  let D := sim (unit_saying "Hash invalid") None in
  let st := snd (send_command D "x" (init (sim_set_open true unplugged))) in
  fst (read_response D st) = Ok "Hash invalid".
Proof.
  refine (f_equal fst
            (ascii_answer_is_read (sim (unit_saying "Hash invalid") None)
               (snd (send_command (sim (unit_saying "Hash invalid") None) "x"
                       (init (sim_set_open true unplugged))))
               _ _ "Hash invalid" _ eq_refl eq_refl eq_refl)).
Defined.

(** X3: the bytes of each read are decoded on their own.  A read that ends
    on the first byte of a multi-byte character makes [read_response] raise
    [UnicodeDecodeError], however well formed the text before it: the bytes
    are taken from the port, and none of them reaches [rx]. *)
Theorem split_character_is_rejected {T} (D : Serial T)
  (st : RNS510CodeFinder T) k t1 (a : PyStr.bytes) (c : ascii) t2 :
  PyStr.valid_utf8 a = true ->
  PyStr.byte_in 194 244 c = true ->
  in_waiting D (serial_port st) = (Ok k, t1) ->
  read D k t1 = (Ok (a ++ String c ""), t2) ->
  read_response D st
  = (Raise (UnicodeDecodeError (a ++ String c "")), set_serial_port t2 st)
  /\ rx (snd (read_response D st)) = rx st.
Proof.
  intros Ha Hc Hw Hr.
  assert (Hbad : PyStr.valid_utf8 (a ++ String c "") = false)
    by (rewrite (valid_utf8_app (String.length a) a _ (le_n _) Ha);
        now apply lead_byte_alone).
  assert (E : read_response D st
              = (Raise (UnicodeDecodeError (a ++ String c "")),
                 set_serial_port t2 st)).
  { cbv [read_response bind call decode gets modify log ret raise].
    rewrite Hw. cbn [serial_port set_serial_port]. rewrite Hr, Hbad.
    reflexivity. }
  rewrite E. split; reflexivity.
Qed.

Lemma split_character_is_rejected_witness :
  let D := sim (unit_saying (String (ascii_of_nat 195) "")) None in
  let st := snd (send_command D "x" (init (sim_set_open true unplugged))) in
  rx (snd (read_response D st)) = rx st.
Proof.
  exact (proj2 (split_character_is_rejected
                  (sim (unit_saying (String (ascii_of_nat 195) "")) None)
                  (snd (send_command
                          (sim (unit_saying (String (ascii_of_nat 195) ""))
                             None) "x"
                          (init (sim_set_open true unplugged))))
                  _ _ "" (ascii_of_nat 195) _
                  eq_refl eq_refl eq_refl eq_refl)).
Defined.

(** ** What goes on the wire *)

Section Wire.

Variable device : PyStr.bytes -> PyStr.bytes.
Variable open_error : option exn.
Variable controller : Z -> bool.

Lemma sim_verify_wire (p : string) (st : RNS510CodeFinder Sim) :
  sim_is_open (serial_port st) = true ->
  let out := verify_pin (sim device open_error) p st in
  sim_is_open (serial_port (snd out)) = true
  /\ wire (serial_port (snd out))
     = (wire (serial_port st) ++ [command_line p])%list.
Proof.
  intros Ho. destruct st as [[o nm w pd] sc pn r lg]; cbn in Ho; subst o.
  cbv [verify_pin send_command read_response bind call decode gets modify
       log ret raise].
  cbn [event_level level_rank Nat.leb serial_port set_serial_port sim write
       in_waiting read sleep sim_write sim_in_waiting sim_read sim_is_open
       sim_port wire pending rx set_rx].
  destruct (PyStr.valid_utf8 _); [|split; reflexivity].
  cbn [rx set_rx serial_port].
  destruct (PyStr.contains "Hash valid" _); [split; reflexivity|].
  destruct (PyStr.contains "Hash invalid" _); split; reflexivity.
Qed.

Lemma sim_loop_wire (n : nat) : forall i (st : RNS510CodeFinder Sim),
  sim_is_open (serial_port st) = true ->
  let out := for_range n i (try_candidate (sim device open_error) controller)
               st in
  exists new,
    logging (snd out) = (logging st ++ new)%list
    /\ wire (serial_port (snd out))
       = (wire (serial_port st) ++ map command_line (tried new))%list.
Proof.
  induction n as [|n IH]; intros i st Ho; cbn zeta.
  - exists []. cbn. now rewrite !app_nil_r.
  - rewrite for_range_step.
    destruct (try_candidate_cases (sim device open_error) controller i st)
      as [[_ ->] | [_ ->]].
    + exists [Stopped]. cbn [snd tried map].
      destruct (controller i); cbn; now rewrite app_nil_r.
    + set (st1 := set_logging _ _).
      assert (Ho1 : sim_is_open (serial_port st1) = true)
        by (subst st1; destruct (controller i); exact Ho).
      assert (Hw1 : wire (serial_port st1) = wire (serial_port st))
        by (subst st1; destruct (controller i); reflexivity).
      assert (Hl1 : logging st1
                    = (logging st ++ [Trying (candidate i)])%list)
        by (subst st1; destruct (controller i); reflexivity).
      pose proof (sim_verify_wire (candidate i) st1 Ho1) as Hv.
      cbn zeta in Hv.
      destruct (verify_pin (sim device open_error) (candidate i) st1)
        as [rv s2] eqn:Ev.
      apply verify_pin_cases in Ev. destruct Ev as (_ & _ & Hl2 & _).
      cbn [snd] in Hv. destruct Hv as [Ho2 Hw2].
      destruct rv as [[[|]|]|e].
      * exists [Trying (candidate i); Found (candidate i)].
        cbn [snd logging serial_port set_pin set_logging tried map].
        rewrite Hl2, Hl1, Hw2, Hw1, <- app_assoc. auto.
      * destruct (IH (i + 1)
                    (set_logging (logging s2 ++ [Invalid (candidate i)]) s2)
                    Ho2) as (new & Hl & Hw).
        exists (Trying (candidate i) :: Invalid (candidate i) :: new).
        cbn [logging serial_port set_logging tried map] in *.
        rewrite Hl, Hw, Hl2, Hl1, Hw2, Hw1, <- !app_assoc. auto.
      * destruct (IH (i + 1)
                    (set_logging (logging s2 ++ [NoResponse (candidate i)]) s2)
                    Ho2) as (new & Hl & Hw).
        exists (Trying (candidate i) :: NoResponse (candidate i) :: new).
        cbn [logging serial_port set_logging tried map] in *.
        rewrite Hl, Hw, Hl2, Hl1, Hw2, Hw1, <- !app_assoc. auto.
      * exists [Trying (candidate i)].
        cbn [snd tried map]. rewrite Hl2, Hl1, Hw2, Hw1. auto.
Qed.

End Wire.

Lemma sim_guarded_wire device open_error controller start stop
  (st : RNS510CodeFinder Sim) :
  let out := try_except (scan (sim device open_error) controller start stop)
               handlers st in
  exists new,
    logging (snd out) = (logging st ++ new)%list
    /\ wire (serial_port (snd out))
       = (wire (serial_port st) ++ map command_line (tried new))%list.
Proof.
  cbn zeta.
  assert (Hscan :
    let out := scan (sim device open_error) controller start stop st in
    exists new,
      logging (snd out) = (logging st ++ new)%list
      /\ wire (serial_port (snd out))
         = (wire (serial_port st) ++ map command_line (tried new))%list).
  { cbn zeta. unfold scan, bind.
    destruct (open_port_cases (sim device open_error) st)
      as [[Ho ->] | [Hc ->]].
    - apply sim_loop_wire. exact Ho.
    - cbn [open sim]. destruct open_error as [e|].
      + exists []. cbn. now rewrite !app_nil_r.
      + unfold sim_open. cbv beta iota.
        match goal with
        | |- context [for_range ?n ?i ?b ?s] =>
            destruct (sim_loop_wire device None controller n i s eq_refl)
              as (new & Hl & Hw)
        end.
        cbn zeta in Hl, Hw.
        cbn [logging serial_port set_logging set_serial_port wire
               sim_set_open] in Hl, Hw.
        eexists (Opened _ :: new).
        cbn [tried]. rewrite Hl, Hw, <- app_assoc. split; reflexivity. }
  cbn zeta in Hscan. destruct Hscan as (new & Hl & Hw).
  unfold try_except.
  destruct (scan (sim device open_error) controller start stop st)
    as [[[]|e] s1]; cbn [snd] in *.
  - exists new. auto.
  - destruct e as [m|b|m|m]; cbn.
    1-3: (eexists; split;
          [rewrite Hl, <- app_assoc; reflexivity
          | rewrite tried_app; cbn [tried]; rewrite app_nil_r; exact Hw]).
    exists new. auto.
Qed.

(** X11: on the simulated port, whatever the unit answers, every probed
    candidate [p] puts exactly the line "TpPvVerifyPin(p)" and a newline on
    the wire, in the order of the probes, and a scan writes nothing else. *)
Theorem scan_writes_one_line_per_probe (device : PyStr.bytes -> PyStr.bytes)
  (open_error : option exn) (controller : Z -> bool) (start stop : Z)
  (st : RNS510CodeFinder Sim) :
  let st' := snd (find_code (sim device open_error) controller start stop st) in
  exists new,
    logging st' = (logging st ++ new)%list
    /\ wire (serial_port st')
       = (wire (serial_port st) ++ map command_line (tried new))%list.
Proof.
  cbn zeta. rewrite find_code_state.
  destruct (sim_guarded_wire device open_error controller start stop st)
    as (new & Hl & Hw).
  cbn zeta in Hl, Hw.
  set (s1 := snd (try_except _ _ st)) in *.
  destruct (close_port_cases (sim device open_error) s1)
    as [[_ ->] | [_ ->]].
  - exists new. auto.
  - cbn [close sim sim_close snd logging serial_port set_logging
           set_serial_port wire sim_set_open].
    eexists (new ++ [Closed _])%list.
    rewrite Hl, Hw, tried_app, <- app_assoc. cbn. rewrite app_nil_r.
    split; reflexivity.
Qed.

(** ** Reading the log of a scan *)

Lemma zseq_last (n : nat) : forall i,
  zseq i (S n) = (zseq i n ++ [i + Z.of_nat n])%list.
Proof.
  induction n as [|n IH]; intros i.
  - cbn. now rewrite Z.add_0_r.
  - change (zseq i (S (S n))) with (i :: zseq (i + 1) (S n)).
    rewrite IH. cbn [zseq app]. do 3 f_equal. lia.
Qed.

Lemma scan_run_stopped ctl flag i n evs :
  scan_run ctl flag i n evs UserStopped -> In Stopped evs.
Proof.
  remember UserStopped as en eqn:Een.
  induction 1; try discriminate; cbn; auto.
Qed.

Lemma try_run_stopped ctl flag start stop evs :
  try_run ctl flag start stop evs UserStopped -> In Stopped evs.
Proof.
  inversion 1 as [| opened evs' en' Ho Hrun]; subst.
  apply in_or_app; right. eapply scan_run_stopped; eassumption.
Qed.

Lemma found_only_in_try ctl flag start stop evs en closing p :
  try_run ctl flag start stop evs en ->
  closing = [] \/ (exists q, closing = [Closed q]) ->
  In (Found p) (evs ++ report en ++ closing) -> en = PinFound p.
Proof.
  intros Ht Hcl Hin. apply (try_run_found _ _ _ _ _ _ Ht).
  apply in_app_or in Hin as [Hin | Hin]; [exact Hin|].
  exfalso. apply in_app_or in Hin as [Hin | Hin].
  - destruct en as [|q| |e]; try contradiction. cbn in Hin.
    destruct (is_Exception e); [|contradiction].
    destruct Hin as [H | []]. destruct e; discriminate.
  - destruct Hcl as [-> | [q ->]]; [contradiction|].
    destruct Hin as [H | []]; discriminate.
Qed.

(** X13: a scan reports at most one code; the code it reports is the last
    candidate it probed (the loop stops at the first valid answer) and is
    what [pin] holds afterwards. *)
Theorem reported_code_is_last_probe {T} (D : Serial T)
  (controller : Z -> bool) (start stop : Z) (st : RNS510CodeFinder T) :
  let st' := snd (find_code D controller start stop st) in
  exists new,
    logging st' = (logging st ++ new)%list
    /\ forall p, In (Found p) new ->
         pin st' = p
         /\ (forall q, In (Found q) new -> q = p)
         /\ exists earlier, tried new = (earlier ++ [p])%list.
Proof.
  cbn zeta.
  destruct (find_code D controller start stop st) as [r st'] eqn:E.
  apply find_code_conforms in E.
  destruct E as (evs & en & closing & Ht & Hl & Hcl & _ & Hen & _).
  exists (evs ++ report en ++ closing)%list. cbn [snd].
  split; [exact Hl|]. intros p Hp.
  pose proof (found_only_in_try _ _ _ _ _ _ _ _ Ht Hcl Hp) as ->.
  cbn in Hen. destruct Hen as (_ & Hpin & _).
  split; [exact Hpin|]. split.
  - intros q Hq.
    pose proof (found_only_in_try _ _ _ _ _ _ _ _ Ht Hcl Hq) as [= ->].
    reflexivity.
  - destruct (try_run_tried _ _ _ _ _ _ Ht) as (k & _ & Htr & _ & Hlast & _).
    destruct (Hlast p eq_refl) as [Hpos ->].
    destruct k as [|k]; [lia|].
    exists (map candidate (zseq start k)).
    rewrite !tried_app, tried_report, (tried_closing _ Hcl), app_nil_r, Htr.
    rewrite zseq_last, map_app. cbn [map]. do 3 f_equal. lia.
Qed.

(** X14: a scan that returns without having reported a code, a stop or an
    error has probed every candidate of [range(start, stop + 1)], each
    once and in order.  The driver is assumed to close an open port without
    raising. *)
Theorem quiet_scan_covered_range {T} (D : Serial T) (R : Reliable D)
  (controller : Z -> bool) (start stop : Z) (st : RNS510CodeFinder T)
  (new : list event) :
  let out := find_code D controller start stop st in
  logging (snd out) = (logging st ++ new)%list ->
  fst out = Ok tt ->
  (forall p, ~ In (Found p) new) ->
  ~ In Stopped new ->
  (forall e, ~ In (SerialError e) new /\ ~ In (UnexpectedError e) new) ->
  tried new = map candidate (zseq start (Z.to_nat (stop + 1 - start))).
Proof.
  cbn zeta. intros Hnew Hok Hfound Hstopped Herror.
  destruct (find_code D controller start stop st) as [r st'] eqn:E.
  apply find_code_conforms in E.
  destruct E as (evs & en & closing & Ht & Hl & Hcl & _ & _ & Hr).
  destruct (Hr R) as [Hres _]. cbn [fst snd] in *.
  rewrite Hres in Hok. clear Hres.
  rewrite Hl in Hnew. apply app_inv_head in Hnew. subst new.
  destruct (try_run_tried _ _ _ _ _ _ Ht) as (k & _ & Htr & Hall & _).
  rewrite !tried_app, tried_report, (tried_closing _ Hcl), app_nil_r, Htr.
  destruct en as [|p| |e].
  - now rewrite (Hall eq_refl).
  - exfalso. apply (Hfound p). apply in_or_app; left.
    now apply (try_run_found _ _ _ _ _ _ Ht).
  - exfalso. apply Hstopped. apply in_or_app; left.
    eapply try_run_stopped; eassumption.
  - exfalso. cbn in Hok. destruct (is_Exception e) eqn:He; [|discriminate].
    assert (Hin : In (error_record e) (evs ++ report (Failed e) ++ closing)).
    { apply in_or_app; right. apply in_or_app; left. cbn. rewrite He.
      now left. }
    destruct (Herror e) as [H1 H2]. destruct e; cbn in Hin; tauto.
Qed.

Lemma quiet_scan_covered_range_witness :
  let D := sim (unit_saying "busy") None in
  tried [Opened "COM3"; Trying "0007"; NoResponse "0007"; Trying "0008";
         NoResponse "0008"; Closed "COM3"]
  = map candidate (zseq 7 (Z.to_nat (8 + 1 - 7))).
Proof.
  refine (quiet_scan_covered_range (sim (unit_saying "busy") None)
            (sim_reliable _ _) nobody 7 8 (init unplugged)
            [Opened "COM3"; Trying "0007"; NoResponse "0007"; Trying "0008";
             NoResponse "0008"; Closed "COM3"] _ _ _ _ _).
  - vm_compute. reflexivity.
  - vm_compute. reflexivity.
  - intros p [H|[H|[H|[H|[H|[H|[]]]]]]]; discriminate.
  - intros [H|[H|[H|[H|[H|[H|[]]]]]]]; discriminate.
  - intros e; split; intros [H|[H|[H|[H|[H|[H|[]]]]]]]; discriminate.
Defined.
